(** * sfp_searchtld: the TLD search plug-in of SpiderFoot

    A shallow embedding of [modules/sfp_searchtld.py] and the properties of
    its candidate generation, batching, resolution and reporting.

    The plug-in object ([self]) is a record that is threaded through every
    method.  Everything the module obtains from outside (the [sf] library
    object, [socket.gethostbyname_ex], the order in which worker threads
    finish, the moment the stop flag is raised) is collected in two records,
    [SpiderFoot] and [Runtime].  Every call that leaves the module is
    appended to a trace, so that what was dispatched, fetched and notified,
    and in which order, can be read off the final state. *)

From Stdlib Require Import String Ascii List ZArith Bool Arith Lia Permutation.
Import ListNotations.
Open Scope string_scope.

(** ** Python values used by the module *)

(** Exceptions a forward lookup may raise.  [tryTld] catches [BaseException],
    so the interrupts are listed next to the socket errors. *)
Inductive exn : Type :=
| socket_gaierror (errno : Z)
| socket_herror (errno : Z)
| socket_timeout
| KeyboardInterrupt
| SystemExit
| OtherException (msg : string).

(** Outcome of a call that may raise. *)
Inductive res (A : Type) : Type :=
| Ok (a : A)
| Raise (e : exn).
Arguments Ok {A} a.
Arguments Raise {A} e.

Definition is_ok {A : Type} (r : res A) : bool :=
  match r with Ok _ => true | Raise _ => false end.

(** [(hostname, aliaslist, ipaddrlist)], the triple returned by
    [socket.gethostbyname_ex]. *)
Definition hostent : Type := (string * list string * list string)%type.

(** [SpiderFootEvent(eventType, data, module)] *)
Record SpiderFootEvent : Type := mkEvent {
  eventType : string;
  data : string;
  module : string
}.

(** The options dictionary [opts]; [maxthreads] is a Python int. *)
Record Opts : Type := mkOpts {
  activeonly : bool;
  checkcommon : bool;
  commontlds : list string;
  tldlist : string;
  skipwildcards : bool;
  maxthreads : Z
}.

Definition default_opts : Opts :=
  {| activeonly := true;
     checkcommon := true;
     commontlds := ["com"; "info"; "net"; "org"; "biz"; "co"; "edu"; "gov"; "mil"];
     tldlist := "http://data.iana.org/TLD/tlds-alpha-by-domain.txt";
     skipwildcards := true;
     maxthreads := 100 |}.

(** ** Strings: [lower], [splitlines], [startswith] *)

Definition lower_ascii (c : ascii) : ascii :=
  let n := nat_of_ascii c in
  if (65 <=? n)%nat && (n <=? 90)%nat then ascii_of_nat (n + 32) else c.

Fixpoint lower (s : string) : string :=
  match s with
  | EmptyString => EmptyString
  | String c s' => String (lower_ascii c) (lower s')
  end.

Definition LF : ascii := "010"%char.
Definition CR : ascii := "013"%char.

(** [str.splitlines()] of a byte string: a line ends at LF, CR or CR LF, the
    terminators are dropped, and no empty last line is produced. *)
Fixpoint splitlines_from (cur s : string) : list string :=
  match s with
  | EmptyString => if String.eqb cur "" then [] else [cur]
  | String c rest =>
      if Ascii.eqb c LF then cur :: splitlines_from "" rest
      else if Ascii.eqb c CR then
        match rest with
        | String c' rest' =>
            if Ascii.eqb c' LF then cur :: splitlines_from "" rest'
            else cur :: splitlines_from "" rest
        | EmptyString => cur :: splitlines_from "" rest
        end
      else splitlines_from (cur ++ String c "") rest
  end.

Definition splitlines (s : string) : list string := splitlines_from "" s.

Definition startswith (p s : string) : bool := String.prefix p s.

(** ** Dictionaries

    [tldResults] is a dict from candidate to bool.  Its keys are iterated when
    the batch is reported, so the order of the entries is kept, as an
    insertion-ordered dict does: a new key goes to the end, and assigning to a
    key that is present keeps its place. *)
Definition dict : Type := list (string * bool).

Fixpoint dict_set (k : string) (v : bool) (d : dict) : dict :=
  match d with
  | [] => [(k, v)]
  | (k', v') :: d' =>
      if String.eqb k' k then (k', v) :: d' else (k', v') :: dict_set k v d'
  end.

Fixpoint dict_get (k : string) (d : dict) : option bool :=
  match d with
  | [] => None
  | (k', v') :: d' => if String.eqb k' k then Some v' else dict_get k d'
  end.

Definition keys (d : dict) : list string := map fst d.

(** ** The outside world *)

(** The methods of the [sf] object that the module calls and whose answer it
    uses.  [fetchUrl] gives the ['content'] entry of the returned dictionary,
    [None] standing for Python's [None]. *)
Record SpiderFoot : Type := mkSpiderFoot {
  domainKeyword : string -> string;
  fetchUrl : string -> option string;
  checkDnsWildcard : string -> bool
}.

(** What the interpreter and the network decide.
    - [gethostbyname_ex] is the forward lookup.
    - [completionOrder] gives, for the list of candidates whose worker
      threads were started, the order in which the workers' calls end and
      their outcomes are written.
    - [cancelAt] is the moment the stop flag is raised, counted in calls
      made so far ([None]: never).  The flag is not lowered again. *)
Record Runtime : Type := mkRuntime {
  gethostbyname_ex : string -> res hostent;
  completionOrder : list string -> list string;
  cancelAt : option nat
}.

(** The calls that leave the module, in the order they are made. *)
Inductive Effect : Type :=
| SfDebug (msg : string)
| SfError (msg : string)
| SfInfoSpawning (tldList : list string)
| SfInfoFound (result : string)
| FetchUrl (url : string)
| CheckDnsWildcard (zone : string)
| CheckForStop (answer : bool)
| GetHostByName (target : string)
| NotifyListeners (evt : SpiderFootEvent).

(** ** The plug-in object *)

Record Plugin : Type := mkPlugin {
  baseDomain : string;
  results : list string;
  tldResults : dict;
  trace : list Effect
}.

Definition emit (e : Effect) (st : Plugin) : Plugin :=
  {| baseDomain := baseDomain st;
     results := results st;
     tldResults := tldResults st;
     trace := trace st ++ [e] |}.

Definition set_results (r : list string) (st : Plugin) : Plugin :=
  {| baseDomain := baseDomain st;
     results := r;
     tldResults := tldResults st;
     trace := trace st |}.

Definition set_tldResults (d : dict) (st : Plugin) : Plugin :=
  {| baseDomain := baseDomain st;
     results := results st;
     tldResults := d;
     trace := trace st |}.

(** [self.__name__] *)
Definition plugin_name : string := "sfp_searchtld".

(** Batches handed to [tryTldWrapper], read off the trace. *)
Fixpoint batches (tr : list Effect) : list (list string) :=
  match tr with
  | [] => []
  | SfInfoSpawning b :: tr' => b :: batches tr'
  | _ :: tr' => batches tr'
  end.

(** Data of the events passed to [notifyListeners], read off the trace. *)
Fixpoint notified (tr : list Effect) : list string :=
  match tr with
  | [] => []
  | NotifyListeners evt :: tr' => data evt :: notified tr'
  | _ :: tr' => notified tr'
  end.

(** Candidates in the order of their first occurrence. *)
Fixpoint uniq (l : list string) : list string :=
  match l with
  | [] => []
  | x :: l' => x :: filter (fun y => negb (String.eqb x y)) (uniq l')
  end.

Section Methods.

Variable sf : SpiderFoot.
Variable rt : Runtime.
Variable opts : Opts.

(** [setup]: the options are taken as already merged with the user's. *)
Definition setup (target : string) : Plugin :=
  {| baseDomain := target; results := []; tldResults := []; trace := [] |}.

(** The stop flag as seen after [n] calls. *)
Definition stop_requested (n : nat) : bool :=
  match cancelAt rt with
  | Some t => (t <=? n)%nat
  | None => false
  end.

Definition checkForStop (st : Plugin) : bool * Plugin :=
  let b := stop_requested (length (trace st)) in
  (b, emit (CheckForStop b) st).

(** [try: body / except BaseException as e: handler]; what [body] did to the
    object before raising stays done. *)
Definition try_except {A : Type}
    (body : Plugin -> res A * Plugin)
    (handler : exn -> Plugin -> res A * Plugin)
    (st : Plugin) : res A * Plugin :=
  match body st with
  | (Ok a, st') => (Ok a, st')
  | (Raise e, st') => handler e st'
  end.

Definition tryTld (target : string) (st : Plugin) : res unit * Plugin :=
  try_except
    (fun st =>
       let st := emit (GetHostByName target) st in
       match gethostbyname_ex rt target with
       | Raise e => (Raise e, st)
       | Ok addrs =>
           (Ok tt, set_tldResults (dict_set target true (tldResults st)) st)
       end)
    (fun e st =>
       (Ok tt, set_tldResults (dict_set target false (tldResults st)) st))
    st.

(** A worker thread runs [tryTld] from its call to its write; an exception
    leaving it would end the thread and nothing else. *)
Definition worker (st : Plugin) (tld : string) : Plugin :=
  snd (tryTld tld st).

Definition similar_domain (result : string) : SpiderFootEvent :=
  {| eventType := "SIMILARDOMAIN"; data := result; module := plugin_name |}.

Definition sendEvent (source : option string) (result : string)
    (st : Plugin) : Plugin :=
  if String.eqb result (baseDomain st) then st
  else
    let st := emit (SfInfoFound result) st in
    let st := set_results (results st ++ [result]) st in
    if activeonly opts then
      let (stop, st) := checkForStop st in
      if stop then st
      else
        let pageContent := fetchUrl sf ("http://" ++ result) in
        let st := emit (FetchUrl ("http://" ++ result)) st in
        match pageContent with
        | Some _ => emit (NotifyListeners (similar_domain result)) st
        | None => st
        end
    else emit (NotifyListeners (similar_domain result)) st.

Definition report (st : Plugin) (res : string) : Plugin :=
  match dict_get res (tldResults st) with
  | Some true => sendEvent None res st
  | _ => st
  end.

(** What is left of [tryTld] once its call to [gethostbyname_ex] has been
    made: the call returns or raises, and the outcome is written. *)
Definition tryTld_outcome (target : string) (st : Plugin) : res unit * Plugin :=
  try_except
    (fun st =>
       match gethostbyname_ex rt target with
       | Raise e => (Raise e, st)
       | Ok addrs =>
           (Ok tt, set_tldResults (dict_set target true (tldResults st)) st)
       end)
    (fun e st =>
       (Ok tt, set_tldResults (dict_set target false (tldResults st)) st))
    st.

(** A thread that is started makes the call of its [tryTld]. *)
Definition started (st : Plugin) (tld : string) : Plugin :=
  emit (GetHostByName tld) st.

(** A thread finishes when its call is over and its outcome is written. *)
Definition finished (st : Plugin) (tld : string) : Plugin :=
  snd (tryTld_outcome tld st).

(** The threads are started in list order, and each makes its call as it is
    started; the calls end, and the outcomes are written, in
    [completionOrder].  The method waits until none of the threads is alive,
    so every write is done when the keys are read. *)
Definition tryTldWrapper (tldList : list string) (st : Plugin) : Plugin :=
  let st := set_tldResults [] st in
  let st := emit (SfInfoSpawning tldList) st in
  let st := fold_left started tldList st in
  let st := fold_left finished (completionOrder rt tldList) st in
  fold_left report (keys (tldResults st)) st.

(** [if len(targetList) <= maxthreads: append / else: flush and reset] *)
Definition enqueue (cand : string) (targetList : list string) (st : Plugin)
    : list string * Plugin :=
  if (Z.of_nat (length targetList) <=? maxthreads opts)%Z
  then ((targetList ++ [cand])%list, st)
  else ([], tryTldWrapper targetList st).

(** [skipwildcards and sf.checkDnsWildcard(zone)]: the probe is only made
    when the option is set. *)
Definition wildcard_skipped (zone : string) (st : Plugin) : bool * Plugin :=
  if skipwildcards opts
  then (checkDnsWildcard sf zone, emit (CheckDnsWildcard zone) st)
  else (false, st).

(** The loop over [commontlds].  [None] is the [return None] of [start]. *)
Fixpoint sub_loop (keyword tld : string) (subtlds : list string)
    (targetList : list string) (st : Plugin) : option (list string) * Plugin :=
  match subtlds with
  | [] => (Some targetList, st)
  | subtld :: rest =>
      let subDomain := keyword ++ "." ++ subtld ++ "." ++ tld in
      let (stop, st) := checkForStop st in
      if stop then (None, st)
      else
        let (wild, st) := wildcard_skipped (subtld ++ "." ++ tld) st in
        if wild then sub_loop keyword tld rest targetList st
        else
          let (targetList, st) := enqueue subDomain targetList st in
          sub_loop keyword tld rest targetList st
  end.

(** The loop over the lines of the TLD list. *)
Fixpoint tld_loop (keyword : string) (lines : list string)
    (targetList : list string) (st : Plugin) : option (list string) * Plugin :=
  match lines with
  | [] => (Some targetList, st)
  | tld :: rest =>
      if startswith "#" tld then tld_loop keyword rest targetList st
      else
        let (wild, st) := wildcard_skipped tld st in
        if wild then tld_loop keyword rest targetList st
        else
          let tryDomain := keyword ++ "." ++ tld in
          let (stop, st) := checkForStop st in
          if stop then (None, st)
          else
            let (targetList, st) := enqueue tryDomain targetList st in
            if checkcommon opts then
              match sub_loop keyword tld (commontlds opts) targetList st with
              | (None, st) => (None, st)
              | (Some targetList, st) => tld_loop keyword rest targetList st
              end
            else tld_loop keyword rest targetList st
  end.

(** [# Scan whatever may be left over.] *)
Definition leftover (targetList : list string) (st : Plugin) : Plugin :=
  if (0 <? length targetList)%nat then tryTldWrapper targetList st else st.

Definition start (st : Plugin) : Plugin :=
  let keyword := domainKeyword sf (baseDomain st) in
  let st :=
    emit (SfDebug ("Keyword extracted from " ++ baseDomain st ++ ": " ++ keyword)) st in
  let tldlistContent := fetchUrl sf (tldlist opts) in
  let st := emit (FetchUrl (tldlist opts)) st in
  match tldlistContent with
  | None =>
      let st :=
        emit (SfError ("Unable to obtain TLD list from " ++ tldlist opts)) st in
      leftover [] st
  | Some content =>
      match tld_loop keyword (splitlines (lower content)) [] st with
      | (None, st) => st
      | (Some targetList, st) => leftover targetList st
      end
  end.

End Methods.

(** ** Sample worlds *)

Definition nl : string := String LF "".

(** The TLD list is served at the address ["tlds"]; [page] answers the
    content probes. *)
Definition sf_sample (tlds : option string) (page : string -> option string)
    (wild : string -> bool) : SpiderFoot :=
  {| domainKeyword := fun _ => "acme";
     fetchUrl := fun url => if String.eqb url "tlds" then tlds else page url;
     checkDnsWildcard := wild |}.

Definition addr_of (name : string) : res hostent := Ok (name, [], ["192.0.2.1"]).

Definition rt_sample (up : string -> bool) (order : list string -> list string)
    (cancel : option nat) : Runtime :=
  {| gethostbyname_ex :=
       fun t => if up t then addr_of t else Raise (socket_gaierror (-2));
     completionOrder := order;
     cancelAt := cancel |}.

Definition in_order (l : list string) : list string := l.

Definition opts_sample (active common : bool) (subs : list string)
    (skip : bool) (n : Z) : Opts :=
  {| activeonly := active; checkcommon := common; commontlds := subs;
     tldlist := "tlds"; skipwildcards := skip; maxthreads := n |}.

Definition no_wildcards (zone : string) : bool := false.
Definition any_page (url : string) : option string := Some "<html>".
Definition all_up (t : string) : bool := true.

Definition empty_page (url : string) : option string := Some "".
Definition no_page (url : string) : option string := None.

(** A run over the one-line list [xyz] with the content check switched on. *)
Definition opts_active : Opts := opts_sample true false [] false 100.
Definition rt_all_up : Runtime := rt_sample all_up in_order None.
Definition sf_xyz (page : string -> option string) : SpiderFoot :=
  sf_sample (Some "xyz") page no_wildcards.

(** Membership test on candidates. *)
Definition mem (x : string) (l : list string) : bool := existsb (String.eqb x) l.

(** What one [sendEvent] for a result other than the target adds to the
    trace, when it starts after [n] calls. *)
Definition sendEvent_effects (sf : SpiderFoot) (rt : Runtime) (opts : Opts)
    (result : string) (n : nat) : list Effect :=
  SfInfoFound result ::
  (if activeonly opts then
     if stop_requested rt (S n) then [CheckForStop true]
     else
       CheckForStop false :: FetchUrl ("http://" ++ result) ::
       match fetchUrl sf ("http://" ++ result) with
       | Some _ => [NotifyListeners (similar_domain result)]
       | None => []
       end
   else [NotifyListeners (similar_domain result)]).

(** The outcome recorded for a candidate. *)
Definition resolves (rt : Runtime) (target : string) : bool :=
  is_ok (gethostbyname_ex rt target).

(** The dictionary the workers leave behind when they finish in the order
    [sched]. *)
Definition outcomes (rt : Runtime) (sched : list string) (d : dict) : dict :=
  fold_left (fun d t => dict_set t (resolves rt t) d) sched d.

Definition differs (target : string) (c : string) : bool :=
  negb (String.eqb c target).

(** The candidates of a batch that are handed to [sendEvent], in the order
    of the dictionary's keys. *)
Definition hits (rt : Runtime) (sched : list string) : list string :=
  filter (resolves rt) (uniq sched).

(** What reporting the candidates [l] one after the other adds to the trace. *)
Fixpoint announce_effects (sf : SpiderFoot) (rt : Runtime) (opts : Opts)
    (target : string) (l : list string) (n : nat) : list Effect :=
  match l with
  | [] => []
  | r :: l' =>
      if String.eqb r target then announce_effects sf rt opts target l' n
      else
        let e := sendEvent_effects sf rt opts r n in
        (e ++ announce_effects sf rt opts target l' (n + length e))%list
  end.

(** Where a candidate may come from: a line of the TLD list that is not a
    comment and, when wildcards are skipped, not a wildcard zone; either the
    bare [keyword.tld] or, with [checkcommon], [keyword.s.tld] for a common
    sub-TLD [s] whose zone [s.tld] is not skipped. *)
Definition provenance (sf : SpiderFoot) (opts : Opts) (keyword : string)
    (lines : list string) (c : string) : Prop :=
  exists tld,
    In tld lines
    /\ startswith "#" tld = false
    /\ (skipwildcards opts = true -> checkDnsWildcard sf tld = false)
    /\ (c = keyword ++ "." ++ tld
        \/ (checkcommon opts = true
            /\ exists s,
                 In s (commontlds opts)
                 /\ (skipwildcards opts = true ->
                     checkDnsWildcard sf (s ++ "." ++ tld) = false)
                 /\ c = keyword ++ "." ++ s ++ "." ++ tld)).

(** The part of [start] that follows the fetch of the TLD list. *)
Definition scan (sf : SpiderFoot) (rt : Runtime) (opts : Opts)
    (keyword : string) (lines : list string) (st : Plugin) : Plugin :=
  match tld_loop sf rt opts keyword lines [] st with
  | (None, st') => st'
  | (Some targetList, st') => leftover sf rt opts targetList st'
  end.

(** What a loop of [start] establishes: [R] if it returned from [start],
    [I] for the pending batch if it ran to its end. *)
Definition loop_post (I : list string -> Plugin -> Prop) (R : Plugin -> Prop)
    (r : option (list string) * Plugin) : Prop :=
  match r with
  | (None, st') => R st'
  | (Some tl', st') => I tl' st'
  end.

(** The target is neither in [results] nor among the events sent. *)
Definition clean (target : string) (st : Plugin) : Prop :=
  baseDomain st = target
  /\ ~ In target (results st)
  /\ ~ In target (notified (trace st)).

(** Every candidate of the pending batch and of the batches dispatched so far
    has a provenance. *)
Definition sourced (sf : SpiderFoot) (opts : Opts) (keyword : string)
    (lines : list string) (tl : list string) (st : Plugin) : Prop :=
  Forall (provenance sf opts keyword lines) tl
  /\ Forall (Forall (provenance sf opts keyword lines)) (batches (trace st)).

(** A wildcard TLD with a clean sub-zone. *)
Definition biz_is_wild (zone : string) : bool := String.eqb zone "biz".
Definition opts_common : Opts := opts_sample false true ["com"] true 100.

(** ** Cancellation, read off the trace *)









(** ** Runs to compare *)

(** Two runtimes agree when every lookup succeeds in the one exactly when it
    succeeds in the other, the workers finish in the same order and the stop
    flag goes up at the same moment. *)
Definition agree (rt1 rt2 : Runtime) : Prop :=
  (forall t, resolves rt1 t = resolves rt2 t)
  /\ (forall l, completionOrder rt1 l = completionOrder rt2 l)
  /\ cancelAt rt1 = cancelAt rt2.

(** The same answers as [rt_all_up], from other addresses. *)
Definition rt_moved : Runtime :=
  {| gethostbyname_ex := fun t => Ok (t, [t], ["198.51.100.7"]);
     completionOrder := in_order;
     cancelAt := None |}.

(** The same answers as [rt_all_up]; the workers finish last first. *)
Definition rt_reversed : Runtime := rt_sample all_up (@rev string) None.

Definition opts_passive (n : Z) : Opts := opts_sample false false [] false n.

Definition sf_two : SpiderFoot :=
  sf_sample (Some ("com" ++ nl ++ "net")) any_page no_wildcards.
(** The same list and wildcard answers as [sf_two]; no page has content. *)
Definition sf_two_silent : SpiderFoot :=
  sf_sample (Some ("com" ++ nl ++ "net")) no_page no_wildcards.
Definition sf_four : SpiderFoot :=
  sf_sample (Some ("com" ++ nl ++ "net" ++ nl ++ "org" ++ nl ++ "xyz"))
    any_page no_wildcards.
Definition sf_five : SpiderFoot :=
  sf_sample (Some ("com" ++ nl ++ "net" ++ nl ++ "org" ++ nl ++ "xyz" ++ nl ++ "biz"))
    any_page no_wildcards.


(** The pending batch and every dispatched batch hold at most [n]
    candidates. *)
Definition bounded (n : Z) (tl : list string) (st : Plugin) : Prop :=
  (Z.of_nat (length tl) <= n)%Z
  /\ Forall (fun b => (Z.of_nat (length b) <= n)%Z) (batches (trace st)).

(** ** Further readings of the trace *)

(** Names handed to [gethostbyname_ex]. *)
Fixpoint lookups (tr : list Effect) : list string :=
  match tr with
  | [] => []
  | GetHostByName t :: tr' => t :: lookups tr'
  | _ :: tr' => lookups tr'
  end.

(** Addresses handed to [sf.fetchUrl]. *)
Fixpoint fetched (tr : list Effect) : list string :=
  match tr with
  | [] => []
  | FetchUrl u :: tr' => u :: fetched tr'
  | _ :: tr' => fetched tr'
  end.

(** Zones handed to [sf.checkDnsWildcard]. *)
Fixpoint probes (tr : list Effect) : list string :=
  match tr with
  | [] => []
  | CheckDnsWildcard z :: tr' => z :: probes tr'
  | _ :: tr' => probes tr'
  end.

(** What the batches [bs] add to [results]: per batch, the resolving
    candidates other than the target, in the order of the keys. *)
Definition reported (rt : Runtime) (target : string)
    (bs : list (list string)) : list string :=
  flat_map (fun b => filter (differs target) (hits rt (completionOrder rt b))) bs.

(** [results] is what the dispatched batches account for. *)
Definition accounted (rt : Runtime) (target : string) (tl : list string)
    (st : Plugin) : Prop :=
  baseDomain st = target
  /\ results st = reported rt target (batches (trace st)).

(** The lookups made are those of the dispatched batches. *)
Definition resolved_in_batches (rt : Runtime) (tl : list string)
    (st : Plugin) : Prop :=
  lookups (trace st) = concat (batches (trace st)).

(** Every event sent is for a recorded result. *)
Definition events_recorded (tl : list string) (st : Plugin) : Prop :=
  incl (notified (trace st)) (results st).

(** The events sent are the recorded results. *)
Definition events_are_results (tl : list string) (st : Plugin) : Prop :=
  notified (trace st) = results st.

(** An address the run may fetch: the TLD list, or with [activeonly] the
    page of a recorded result. *)
Definition fetch_allowed (opts : Opts) (rs : list string) (u : string) : Prop :=
  u = tldlist opts
  \/ (activeonly opts = true /\ exists r, In r rs /\ u = "http://" ++ r).

Definition fetches_allowed (opts : Opts) (target : string) (tl : list string)
    (st : Plugin) : Prop :=
  baseDomain st = target
  /\ forall u, In u (fetched (trace st)) -> fetch_allowed opts (results st) u.

(** The batches dispatched so far are full and the pending one is not
    overfull. *)
Definition filling (n : Z) (tl : list string) (st : Plugin) : Prop :=
  (Z.of_nat (length tl) <= n + 1)%Z
  /\ Forall (fun b => Z.of_nat (length b) = (n + 1)%Z) (batches (trace st)).

(** Full batches, then at most one more batch, which is not empty. *)
Definition full_but_last (n : Z) (bs : list (list string)) : Prop :=
  exists full last,
    bs = (full ++ last)%list
    /\ Forall (fun b => Z.of_nat (length b) = (n + 1)%Z) full
    /\ (length last <= 1)%nat
    /\ Forall (fun b => (1 <= Z.of_nat (length b) <= n + 1)%Z) last.

(** Nothing is pending and only empty batches were dispatched. *)
Definition starved (tl : list string) (st : Plugin) : Prop :=
  tl = [] /\ Forall (fun b => b = []) (batches (trace st)).

(** Since [st0], nothing was recorded, dispatched, resolved or sent. *)
Definition idle (st0 : Plugin) (st : Plugin) : Prop :=
  results st = results st0
  /\ batches (trace st) = batches (trace st0)
  /\ lookups (trace st) = lookups (trace st0)
  /\ notified (trace st) = notified (trace st0).

Definition halted (rt : Runtime) (st0 : Plugin) (tl : list string)
    (st : Plugin) : Prop :=
  tl = [] /\ idle st0 st /\ stop_requested rt (length (trace st)) = true.

Definition unreachable (tl : list string) (st : Plugin) : Prop := False.

(** The flag is up from the start. *)
Definition rt_stopped : Runtime := rt_sample all_up in_order (Some 0%nat).

(** A zone the run may probe for wildcard DNS: a line of the TLD list that
    is not a comment or, with [checkcommon], [s.tld] for a common sub-TLD [s]
    under a line [tld] that was probed and is no wildcard zone. *)
Definition probe_allowed (sf : SpiderFoot) (opts : Opts) (lines : list string)
    (z : string) : Prop :=
  skipwildcards opts = true
  /\ exists tld,
       In tld lines
       /\ startswith "#" tld = false
       /\ (z = tld
           \/ (checkcommon opts = true
               /\ checkDnsWildcard sf tld = false
               /\ exists s, In s (commontlds opts) /\ z = s ++ "." ++ tld)).

(** A string without upper-case ASCII letters. *)
Definition lowered (s : string) : Prop := lower s = s.

(** A candidate built on a line of the list that is not a comment and has no
    upper-case letter. *)
Definition on_lower_case_tld (opts : Opts) (keyword : string)
    (lines : list string) (c : string) : Prop :=
  exists tld,
    In tld lines
    /\ startswith "#" tld = false
    /\ lowered tld
    /\ (c = keyword ++ "." ++ tld
        \/ exists s, In s (commontlds opts) /\ c = keyword ++ "." ++ s ++ "." ++ tld).

(** ** The options dictionary

    [opts] is a dictionary of the class, from option name to a value;
    [setup] writes the user's options into it. *)
Inductive OptValue : Type :=
| VBool (b : bool)
| VInt (z : Z)
| VStr (s : string)
| VList (l : list string).

Definition optdict : Type := list (string * OptValue).

Fixpoint opt_get (k : string) (d : optdict) : option OptValue :=
  match d with
  | [] => None
  | (k', v') :: d' => if String.eqb k' k then Some v' else opt_get k d'
  end.

Fixpoint opt_set (k : string) (v : OptValue) (d : optdict) : optdict :=
  match d with
  | [] => [(k, v)]
  | (k', v') :: d' =>
      if String.eqb k' k then (k', v) :: d' else (k', v') :: opt_set k v d'
  end.

(** The default options of the class. *)
Definition class_opts : optdict :=
  [("activeonly", VBool true);
   ("checkcommon", VBool true);
   ("commontlds", VList ["com"; "info"; "net"; "org"; "biz"; "co"; "edu"; "gov"; "mil"]);
   ("tldlist", VStr "http://data.iana.org/TLD/tlds-alpha-by-domain.txt");
   ("skipwildcards", VBool true);
   ("maxthreads", VInt 100)].

(** [for opt in userOpts.keys(): self.opts[opt] = userOpts[opt]] *)
Definition merge_opts (shared userOpts : optdict) : optdict :=
  fold_left
    (fun d opt =>
       match opt_get opt userOpts with
       | Some v => opt_set opt v d
       | None => d
       end)
    (map fst userOpts) shared.

(** The six options the module reads, when they have the types of the
    defaults. *)
Definition opts_of (d : optdict) : option Opts :=
  match opt_get "activeonly" d, opt_get "checkcommon" d, opt_get "commontlds" d,
        opt_get "tldlist" d, opt_get "skipwildcards" d, opt_get "maxthreads" d with
  | Some (VBool a), Some (VBool c), Some (VList l),
    Some (VStr u), Some (VBool s), Some (VInt n) =>
      Some {| activeonly := a; checkcommon := c; commontlds := l;
              tldlist := u; skipwildcards := s; maxthreads := n |}
  | _, _, _, _, _, _ => None
  end.

(** * Properties *)

Example splitlines_sample :
  splitlines (lower ("COM" ++ nl ++ "xyz" ++ String CR nl ++ "# c" ++ nl ++ nl ++ "Biz"))
  = ["com"; "xyz"; "# c"; ""; "biz"].
Proof. reflexivity. Qed.

(** The first scenario of the specification: only [acme.xyz] resolves. *)
Example scenario_acme_xyz :
  let st := start
      (sf_sample (Some ("com" ++ nl ++ "xyz" ++ nl ++ "#comment" ++ nl ++ "biz"))
         any_page no_wildcards)
      (rt_sample (String.eqb "acme.xyz") in_order None)
      (opts_sample false false [] false 100)
      (setup "acme.org") in
  results st = ["acme.xyz"] /\ notified (trace st) = ["acme.xyz"]
  /\ batches (trace st) = [["acme.com"; "acme.xyz"; "acme.biz"]].
Proof. vm_compute. auto. Qed.

(** The TLD list cannot be fetched: nothing is resolved. *)
Example scenario_no_list :
  let st := start (sf_sample None any_page no_wildcards)
      (rt_sample all_up in_order None) (opts_sample true true ["com"] true 100)
      (setup "acme.org") in
  results st = [] /\ batches (trace st) = [].
Proof. vm_compute. auto. Qed.

(** ** Reading the trace *)

Lemma batches_app (tr1 tr2 : list Effect) :
  batches (tr1 ++ tr2) = (batches tr1 ++ batches tr2)%list.
Proof.
  induction tr1 as [|e tr1 IH]; simpl; [reflexivity|].
  destruct e; simpl; rewrite IH; reflexivity.
Qed.

Lemma notified_app (tr1 tr2 : list Effect) :
  notified (tr1 ++ tr2) = (notified tr1 ++ notified tr2)%list.
Proof.
  induction tr1 as [|e tr1 IH]; simpl; [reflexivity|].
  destruct e; simpl; rewrite IH; reflexivity.
Qed.

Lemma batches_map_lookup (l : list string) : batches (map GetHostByName l) = [].
Proof. induction l; simpl; auto. Qed.

Lemma notified_map_lookup (l : list string) : notified (map GetHostByName l) = [].
Proof. induction l; simpl; auto. Qed.

(** ** Dictionaries and [uniq] *)

Lemma dict_get_set_same (k : string) (v : bool) (d : dict) :
  dict_get k (dict_set k v d) = Some v.
Proof.
  induction d as [|[k' v'] d IH]; simpl.
  - rewrite String.eqb_refl. reflexivity.
  - destruct (String.eqb k' k) eqn:E; simpl; rewrite E; auto.
Qed.

Lemma dict_get_set_other (k k0 : string) (v : bool) (d : dict) :
  k0 <> k -> dict_get k0 (dict_set k v d) = dict_get k0 d.
Proof.
  intros Hne. induction d as [|[k' v'] d IH]; simpl.
  - destruct (String.eqb k k0) eqn:E; [|reflexivity].
    apply String.eqb_eq in E. congruence.
  - destruct (String.eqb k' k) eqn:E; simpl.
    + destruct (String.eqb k' k0) eqn:E0; [|reflexivity].
      apply String.eqb_eq in E, E0. congruence.
    + rewrite IH. reflexivity.
Qed.

Lemma mem_In (x : string) (l : list string) : mem x l = true <-> In x l.
Proof.
  unfold mem. rewrite existsb_exists. split.
  - intros [y [Hy E]]. apply String.eqb_eq in E. subst. assumption.
  - intros H. exists x. split; [assumption | apply String.eqb_refl].
Qed.

Lemma mem_not_In (x : string) (l : list string) : mem x l = false <-> ~ In x l.
Proof.
  rewrite <- mem_In. destruct (mem x l); split; congruence.
Qed.

Lemma keys_dict_set (k : string) (v : bool) (d : dict) :
  keys (dict_set k v d) = if mem k (keys d) then keys d else (keys d ++ [k])%list.
Proof.
  induction d as [|[k' v'] d IH]; simpl; [reflexivity|].
  rewrite (String.eqb_sym k k').
  destruct (String.eqb k' k) eqn:E; simpl.
  - reflexivity.
  - rewrite IH. unfold mem. destruct (existsb (String.eqb k) (keys d)); reflexivity.
Qed.

Lemma uniq_snoc (l : list string) (x : string) :
  uniq (l ++ [x]) = if mem x l then uniq l else (uniq l ++ [x])%list.
Proof.
  induction l as [|a l IH]; simpl; [reflexivity|].
  rewrite IH. rewrite (String.eqb_sym x a).
  destruct (String.eqb a x) eqn:E; simpl.
  - destruct (mem x l); [reflexivity|].
    rewrite filter_app. simpl. rewrite E. simpl. rewrite app_nil_r. reflexivity.
  - destruct (mem x l); [reflexivity|].
    rewrite filter_app. simpl. rewrite E. reflexivity.
Qed.

Lemma In_uniq (l : list string) (x : string) : In x (uniq l) <-> In x l.
Proof.
  induction l as [|a l IH]; simpl; [tauto|].
  rewrite filter_In, IH. split.
  - intros [H | [H _]]; auto.
  - intros [H | H]; auto.
    destruct (String.eqb a x) eqn:E.
    + apply String.eqb_eq in E. auto.
    + right. split; auto.
Qed.

Lemma NoDup_filter_str (f : string -> bool) (l : list string) :
  NoDup l -> NoDup (filter f l).
Proof.
  induction 1 as [|a l Hin Hnd IH]; simpl; [constructor|].
  destruct (f a); [constructor|]; auto.
  rewrite filter_In. tauto.
Qed.

Lemma NoDup_uniq (l : list string) : NoDup (uniq l).
Proof.
  induction l as [|a l IH]; simpl; constructor.
  - rewrite filter_In. intros [_ H]. rewrite String.eqb_refl in H. discriminate.
  - apply NoDup_filter_str, IH.
Qed.

Lemma uniq_NoDup_id (l : list string) : NoDup l -> uniq l = l.
Proof.
  induction 1 as [|a l Hin Hnd IH]; simpl; [reflexivity|].
  rewrite IH. f_equal.
  apply forallb_filter_id. apply forallb_forall. intros y Hy.
  destruct (String.eqb a y) eqn:E; [|reflexivity].
  apply String.eqb_eq in E. subst. contradiction.
Qed.

Section ClosedForms.

Variable sf : SpiderFoot.
Variable rt : Runtime.
Variable opts : Opts.

(** ** [tryTld] and the workers *)

Lemma tryTld_eq (target : string) (st : Plugin) :
  tryTld rt target st =
  (Ok tt,
   set_tldResults (dict_set target (resolves rt target) (tldResults st))
     (emit (GetHostByName target) st)).
Proof.
  unfold tryTld, try_except, resolves.
  destruct (gethostbyname_ex rt target); reflexivity.
Qed.

Lemma workers_eq (sched : list string) (st : Plugin) :
  fold_left (worker rt) sched st =
  {| baseDomain := baseDomain st;
     results := results st;
     tldResults := outcomes rt sched (tldResults st);
     trace := trace st ++ map GetHostByName sched |}.
Proof.
  revert st. induction sched as [|t sched IH]; intros st; simpl.
  - rewrite app_nil_r. destruct st; reflexivity.
  - rewrite IH. unfold worker. rewrite tryTld_eq. simpl.
    rewrite <- app_assoc. reflexivity.
Qed.

Lemma tryTld_split (target : string) (st : Plugin) :
  tryTld rt target st = tryTld_outcome rt target (emit (GetHostByName target) st).
Proof. reflexivity. Qed.

Lemma worker_split (st : Plugin) (tld : string) :
  worker rt st tld = finished rt (started st tld) tld.
Proof. reflexivity. Qed.

Lemma started_eq (l : list string) (st : Plugin) :
  fold_left started l st =
  {| baseDomain := baseDomain st;
     results := results st;
     tldResults := tldResults st;
     trace := trace st ++ map GetHostByName l |}.
Proof.
  revert st. induction l as [|t l IH]; intros st; simpl.
  - rewrite app_nil_r. destruct st; reflexivity.
  - rewrite IH. unfold started, emit. cbn [baseDomain results tldResults trace].
    rewrite <- app_assoc. reflexivity.
Qed.

Lemma finished_eq (sched : list string) (st : Plugin) :
  fold_left (finished rt) sched st =
  {| baseDomain := baseDomain st;
     results := results st;
     tldResults := outcomes rt sched (tldResults st);
     trace := trace st |}.
Proof.
  revert st. induction sched as [|t sched IH]; intros st; simpl.
  - destruct st; reflexivity.
  - rewrite IH. unfold finished, tryTld_outcome, try_except, resolves.
    destruct (gethostbyname_ex rt t); reflexivity.
Qed.

Lemma outcomes_snoc (sched : list string) (t : string) (d : dict) :
  outcomes rt (sched ++ [t]) d = dict_set t (resolves rt t) (outcomes rt sched d).
Proof. unfold outcomes. rewrite fold_left_app. reflexivity. Qed.

Lemma keys_outcomes (sched : list string) :
  keys (outcomes rt sched []) = uniq sched.
Proof.
  induction sched as [|t sched IH] using rev_ind; [reflexivity|].
  rewrite outcomes_snoc, keys_dict_set, IH, uniq_snoc.
  destruct (mem t sched) eqn:E.
  - assert (H : mem t (uniq sched) = true) by (apply mem_In, In_uniq, mem_In, E).
    rewrite H. reflexivity.
  - assert (H : mem t (uniq sched) = false).
    { apply mem_not_In. rewrite In_uniq. apply mem_not_In, E. }
    rewrite H. reflexivity.
Qed.

Lemma get_outcomes (sched : list string) (k : string) :
  dict_get k (outcomes rt sched []) =
  if mem k sched then Some (resolves rt k) else None.
Proof.
  induction sched as [|t sched IH] using rev_ind; [reflexivity|].
  rewrite outcomes_snoc.
  unfold mem. rewrite existsb_app. simpl. rewrite orb_false_r.
  destruct (String.eqb k t) eqn:E.
  - apply String.eqb_eq in E. subst. rewrite orb_true_r. apply dict_get_set_same.
  - rewrite orb_false_r. rewrite dict_get_set_other; [exact IH|].
    apply String.eqb_neq, E.
Qed.

(** ** [sendEvent] *)

Lemma sendEvent_target (source : option string) (st : Plugin) :
  sendEvent sf rt opts source (baseDomain st) st = st.
Proof. unfold sendEvent. rewrite String.eqb_refl. reflexivity. Qed.

Lemma sendEvent_other (source : option string) (result : string) (st : Plugin) :
  result <> baseDomain st ->
  sendEvent sf rt opts source result st =
  {| baseDomain := baseDomain st;
     results := results st ++ [result];
     tldResults := tldResults st;
     trace := trace st ++ sendEvent_effects sf rt opts result (length (trace st)) |}.
Proof.
  intros Hne. unfold sendEvent, sendEvent_effects.
  apply String.eqb_neq in Hne. rewrite Hne.
  generalize ("http://" ++ result). intros url.
  destruct (activeonly opts).
  - unfold checkForStop, emit, set_results. cbn [trace results baseDomain tldResults].
    rewrite length_app. cbn [length]. rewrite Nat.add_1_r.
    destruct (stop_requested rt (S (length (trace st)))).
    + rewrite <- app_assoc. reflexivity.
    + destruct (fetchUrl sf url);
        cbn [trace results baseDomain tldResults];
        repeat rewrite <- app_assoc; reflexivity.
  - unfold emit, set_results. cbn [trace results baseDomain tldResults].
    rewrite <- app_assoc. reflexivity.
Qed.

Lemma batches_sendEvent_effects (result : string) (n : nat) :
  batches (sendEvent_effects sf rt opts result n) = [].
Proof.
  unfold sendEvent_effects.
  destruct (activeonly opts); [|reflexivity].
  destruct (stop_requested rt (S n)); [reflexivity|].
  destruct (fetchUrl sf _); reflexivity.
Qed.

Lemma notified_sendEvent_effects (result : string) (n : nat) :
  notified (sendEvent_effects sf rt opts result n) = [] \/
  notified (sendEvent_effects sf rt opts result n) = [result].
Proof.
  unfold sendEvent_effects.
  destruct (activeonly opts); [|right; reflexivity].
  destruct (stop_requested rt (S n)); [left; reflexivity|].
  destruct (fetchUrl sf _); [right|left]; reflexivity.
Qed.

(** ** Reporting a batch *)

Lemma announce_eq (l : list string) (st : Plugin) :
  fold_left (fun s r => sendEvent sf rt opts None r s) l st =
  {| baseDomain := baseDomain st;
     results := results st ++ filter (differs (baseDomain st)) l;
     tldResults := tldResults st;
     trace := trace st ++
              announce_effects sf rt opts (baseDomain st) l (length (trace st)) |}.
Proof.
  revert st. induction l as [|r l IH]; intros st; simpl.
  - rewrite !app_nil_r. destruct st; reflexivity.
  - unfold differs at 1. destruct (String.eqb r (baseDomain st)) eqn:E.
    + apply String.eqb_eq in E. subst r. rewrite sendEvent_target.
      simpl. apply IH.
    + apply String.eqb_neq in E. rewrite (sendEvent_other _ _ _ E), IH.
      cbn [baseDomain results tldResults trace negb].
      rewrite length_app, <- !app_assoc. reflexivity.
Qed.

Lemma report_loop (ks : list string) (st : Plugin) :
  fold_left (report sf rt opts) ks st =
  fold_left (fun s r => sendEvent sf rt opts None r s)
    (filter (fun k => match dict_get k (tldResults st) with
                      | Some true => true | _ => false end) ks) st.
Proof.
  revert st. induction ks as [|k ks IH]; intros st; simpl; [reflexivity|].
  unfold report at 2.
  assert (Hsame : forall st', tldResults (sendEvent sf rt opts None k st') = tldResults st').
  { intros st'. destruct (string_dec k (baseDomain st')) as [->|Hne].
    - rewrite sendEvent_target. reflexivity.
    - rewrite (sendEvent_other _ _ _ Hne). reflexivity. }
  destruct (dict_get k (tldResults st)) as [[|]|] eqn:E; simpl.
  - rewrite IH, Hsame. reflexivity.
  - apply IH.
  - apply IH.
Qed.

Lemma filter_outcomes (sched : list string) :
  filter (fun k => match dict_get k (outcomes rt sched []) with
                   | Some true => true | _ => false end) (uniq sched)
  = hits rt sched.
Proof.
  unfold hits. apply filter_ext_in. intros k Hk.
  rewrite get_outcomes.
  apply (proj1 (In_uniq _ _)) in Hk. apply (proj2 (mem_In _ _)) in Hk. rewrite Hk.
  destruct (resolves rt k); reflexivity.
Qed.

(** [tryTldWrapper] in closed form. *)
Lemma tryTldWrapper_eq (tldList : list string) (st : Plugin) :
  tryTldWrapper sf rt opts tldList st =
  let sched := completionOrder rt tldList in
  {| baseDomain := baseDomain st;
     results := results st ++ filter (differs (baseDomain st)) (hits rt sched);
     tldResults := outcomes rt sched [];
     trace := trace st ++
              SfInfoSpawning tldList :: map GetHostByName tldList ++
              announce_effects sf rt opts (baseDomain st) (hits rt sched)
                (length (trace st) + 1 + length tldList) |}.
Proof.
  unfold tryTldWrapper. cbv zeta.
  rewrite started_eq, finished_eq.
  cbn [baseDomain results tldResults trace set_tldResults emit].
  rewrite keys_outcomes, report_loop.
  cbn [baseDomain results tldResults trace].
  rewrite filter_outcomes, announce_eq.
  cbn [baseDomain results tldResults trace].
  rewrite !length_app, length_map. cbn [length].
  rewrite <- !app_assoc. reflexivity.
Qed.

End ClosedForms.

(** ** Resolution of one candidate *)

Local Open Scope list_scope.

Section Resolution.

Variable rt : Runtime.

(** C7.  [tryTld] always returns normally, whatever the lookup raises; it
    records [True] for the candidate exactly when the lookup returned and
    [False] exactly when it raised; the entries of the other candidates are
    left as they were, so that after all workers of a batch have run every
    candidate of the batch carries the outcome of its own lookup. *)
Theorem tryTld_contains_lookup_errors (target : string) (st : Plugin) :
  exists st',
    tryTld rt target st = (Ok tt, st')
    /\ (dict_get target (tldResults st') = Some true
        <-> exists addrs, gethostbyname_ex rt target = Ok addrs)
    /\ (dict_get target (tldResults st') = Some false
        <-> exists e, gethostbyname_ex rt target = Raise e)
    /\ (forall sibling, sibling <> target ->
        dict_get sibling (tldResults st') = dict_get sibling (tldResults st))
    /\ results st' = results st
    /\ (forall batch c,
        dict_get c (tldResults (fold_left (worker rt) batch (set_tldResults [] st)))
        = if mem c batch then Some (is_ok (gethostbyname_ex rt c)) else None).
Proof.
  eexists. split; [apply tryTld_eq|].
  cbn [tldResults set_tldResults emit results].
  rewrite dict_get_set_same. unfold resolves.
  repeat split.
  - destruct (gethostbyname_ex rt target) as [a|e]; simpl; intros H;
      [exists a; reflexivity | discriminate].
  - intros [a Ha]. rewrite Ha. reflexivity.
  - destruct (gethostbyname_ex rt target) as [a|e]; simpl; intros H;
      [discriminate | exists e; reflexivity].
  - intros [e He]. rewrite He. reflexivity.
  - intros sibling Hne. apply dict_get_set_other, Hne.
  - intros batch c. rewrite workers_eq. cbn [tldResults set_tldResults].
    apply get_outcomes.
Qed.

End Resolution.

(** ** The content check *)

Section ContentCheck.

Variable sf : SpiderFoot.
Variable rt : Runtime.
Variable opts : Opts.

(** C4, as the code has it.  With [activeonly] set, for a candidate other
    than the target and with no stop requested at the check, the event is
    sent exactly when the fetch of [http://<candidate>] returns content that
    is not [None]; the content itself is not inspected, so an empty body is
    accepted. *)
Theorem content_check_accepts_non_null (source : option string)
    (result : string) (st : Plugin) :
  activeonly opts = true ->
  result <> baseDomain st ->
  stop_requested rt (S (length (trace st))) = false ->
  let st' := sendEvent sf rt opts source result st in
  (notified (trace st') = notified (trace st) ++ [result]
   <-> exists body, fetchUrl sf ("http://" ++ result)%string = Some body)
  /\ (notified (trace st') = notified (trace st)
      <-> fetchUrl sf ("http://" ++ result)%string = None).
Proof.
  intros Hact Hne Hstop st'. subst st'.
  rewrite (sendEvent_other sf rt opts source result st Hne).
  cbn [trace]. rewrite notified_app.
  unfold sendEvent_effects. rewrite Hact, Hstop.
  generalize ("http://" ++ result)%string. intros url.
  destruct (fetchUrl sf url) as [body|]; cbn [notified data similar_domain].
  - split; split; intros H.
    + exists body. reflexivity.
    + reflexivity.
    + exfalso. rewrite <- (app_nil_r (notified (trace st))) in H at 2.
      apply app_inv_head in H. discriminate.
    + discriminate.
  - rewrite app_nil_r. split; split; intros H.
    + exfalso. rewrite <- (app_nil_r (notified (trace st))) in H at 1.
      apply app_inv_head in H. discriminate.
    + destruct H as [body H]. discriminate.
    + reflexivity.
    + reflexivity.
Qed.

(** C5, as the code has it.  A candidate other than the target is appended
    to [results] by every [sendEvent], before and independently of the
    content check; with [activeonly] set, a fetch that returns [None] only
    withholds the event. *)
Theorem results_record_before_content_check (source : option string)
    (result : string) (st : Plugin) :
  result <> baseDomain st ->
  let st' := sendEvent sf rt opts source result st in
  results st' = results st ++ [result]
  /\ (activeonly opts = true ->
      fetchUrl sf ("http://" ++ result)%string = None ->
      notified (trace st') = notified (trace st)).
Proof.
  intros Hne st'. subst st'.
  rewrite (sendEvent_other sf rt opts source result st Hne).
  cbn [results trace]. split; [reflexivity|].
  intros Hact Hnone. rewrite notified_app.
  unfold sendEvent_effects. rewrite Hact.
  revert Hnone. generalize ("http://" ++ result)%string. intros url Hnone.
  rewrite Hnone.
  destruct (stop_requested rt (S (length (trace st)))); simpl;
    apply app_nil_r.
Qed.

End ContentCheck.

Lemma content_check_accepts_non_null_witness :
  (activeonly opts_active = true
   /\ "acme.xyz" <> baseDomain (setup "acme.org")
   /\ stop_requested rt_all_up (S (length (trace (setup "acme.org")))) = false)
  /\ ((notified (trace (sendEvent (sf_xyz any_page) rt_all_up opts_active None
                          "acme.xyz" (setup "acme.org")))
       = notified (trace (setup "acme.org")) ++ ["acme.xyz"]
       <-> exists body, fetchUrl (sf_xyz any_page) "http://acme.xyz" = Some body)
      /\ (notified (trace (sendEvent (sf_xyz any_page) rt_all_up opts_active None
                             "acme.xyz" (setup "acme.org")))
          = notified (trace (setup "acme.org"))
          <-> fetchUrl (sf_xyz any_page) "http://acme.xyz" = None)).
Proof.
  split.
  - split; [reflexivity | split; [discriminate | reflexivity]].
  - apply (content_check_accepts_non_null (sf_xyz any_page) rt_all_up opts_active
             None "acme.xyz" (setup "acme.org")).
    + reflexivity.
    + discriminate.
    + reflexivity.
Defined.

(** C4, where the claim fails: the fetch returns an empty body, which is not
    [None], and the event is sent. *)
Lemma empty_body_is_accepted :
  fetchUrl (sf_xyz empty_page) "http://acme.xyz" = Some ""%string
  /\ notified (trace (start (sf_xyz empty_page) rt_all_up opts_active
                        (setup "acme.org"))) = ["acme.xyz"%string].
Proof. vm_compute. split; reflexivity. Qed.

Lemma results_record_before_content_check_witness :
  "acme.xyz" <> baseDomain (setup "acme.org")
  /\ results (sendEvent (sf_xyz no_page) rt_all_up opts_active None
                "acme.xyz" (setup "acme.org"))
     = results (setup "acme.org") ++ ["acme.xyz"]
  /\ (activeonly opts_active = true ->
      fetchUrl (sf_xyz no_page) "http://acme.xyz" = None ->
      notified (trace (sendEvent (sf_xyz no_page) rt_all_up opts_active None
                         "acme.xyz" (setup "acme.org")))
      = notified (trace (setup "acme.org"))).
Proof.
  split; [discriminate|].
  apply (results_record_before_content_check (sf_xyz no_page) rt_all_up
           opts_active None "acme.xyz" (setup "acme.org")).
  discriminate.
Defined.

(** C5, where the claim fails: [acme.xyz] resolves, its content fetch returns
    [None], no event is sent, and the candidate is in [results] all the
    same. *)
Lemma unverified_candidate_is_recorded :
  fetchUrl (sf_xyz no_page) "http://acme.xyz" = None
  /\ notified (trace (start (sf_xyz no_page) rt_all_up opts_active
                        (setup "acme.org"))) = []
  /\ results (start (sf_xyz no_page) rt_all_up opts_active (setup "acme.org"))
     = ["acme.xyz"%string].
Proof. vm_compute. repeat split; reflexivity. Qed.

(** ** The outcome map of a batch *)

Section Batch.

Variable sf : SpiderFoot.
Variable rt : Runtime.
Variable opts : Opts.

Lemma batches_announce_effects (target : string) (l : list string) (n : nat) :
  batches (announce_effects sf rt opts target l n) = [].
Proof.
  revert n. induction l as [|r l IH]; intros n; [reflexivity|].
  cbn [announce_effects].
  destruct (String.eqb r target); [apply IH|].
  cbv zeta. rewrite batches_app, batches_sendEvent_effects, IH. reflexivity.
Qed.

Lemma count_notified_announce (target : string) (l : list string) (n : nat)
    (c : string) :
  count_occ string_dec (notified (announce_effects sf rt opts target l n)) c
  <= count_occ string_dec l c.
Proof.
  revert n. induction l as [|r l IH]; intros n; [simpl; lia|].
  cbn [announce_effects].
  destruct (String.eqb r target).
  - specialize (IH n). cbn [count_occ]. destruct (string_dec r c); lia.
  - cbv zeta. rewrite notified_app, count_occ_app.
    specialize (IH (n + length (sendEvent_effects sf rt opts r n))).
    destruct (notified_sendEvent_effects sf rt opts r n) as [E|E]; rewrite E;
      cbn [count_occ]; destruct (string_dec r c); lia.
Qed.

Lemma notified_announce_not_target (target : string) (l : list string) (n : nat) :
  ~ In target (notified (announce_effects sf rt opts target l n)).
Proof.
  revert n. induction l as [|r l IH]; intros n; [simpl; tauto|].
  cbn [announce_effects].
  destruct (String.eqb r target) eqn:E; [apply IH|].
  cbv zeta. rewrite notified_app, in_app_iff. intros [H|H]; [|exact (IH _ H)].
  apply String.eqb_neq in E.
  destruct (notified_sendEvent_effects sf rt opts r n) as [E'|E'];
    rewrite E' in H; simpl in H; tauto.
Qed.

Lemma notified_announce_passive (target : string) (l : list string) (n : nat) :
  activeonly opts = false ->
  notified (announce_effects sf rt opts target l n) = filter (differs target) l.
Proof.
  intros Hact. revert n. induction l as [|r l IH]; intros n; [reflexivity|].
  cbn [announce_effects filter].
  unfold differs at 1. destruct (String.eqb r target); cbn [negb]; [apply IH|].
  cbv zeta. rewrite notified_app, IH.
  unfold sendEvent_effects. rewrite Hact. reflexivity.
Qed.

Lemma NoDup_hits (sched : list string) : NoDup (hits rt sched).
Proof. apply NoDup_filter_str, NoDup_uniq. Qed.

(** C10.  When every worker that was started has finished, [tldResults] has
    one entry for each distinct candidate of the batch and no other, holding
    the outcome of its lookup; and the batch adds each candidate string at
    most once to [results] and sends at most one event for it, however often
    the string occurs in the batch. *)
Theorem one_outcome_per_distinct_candidate (tldList : list string) (st : Plugin) :
  Permutation (completionOrder rt tldList) tldList ->
  let st' := tryTldWrapper sf rt opts tldList st in
  NoDup (keys (tldResults st'))
  /\ (forall c, In c (keys (tldResults st')) <-> In c tldList)
  /\ (forall c, In c tldList -> dict_get c (tldResults st') = Some (resolves rt c))
  /\ exists new ext,
       results st' = results st ++ new
       /\ trace st' = trace st ++ ext
       /\ forall c, count_occ string_dec new c <= 1
                    /\ count_occ string_dec (notified ext) c <= 1.
Proof.
  intros Hperm st'. subst st'. rewrite tryTldWrapper_eq. cbv zeta.
  cbn [tldResults results trace].
  set (sched := completionOrder rt tldList) in *.
  rewrite keys_outcomes.
  split; [apply NoDup_uniq|].
  split.
  { intros c. rewrite In_uniq. split; intros H.
    - eapply Permutation_in; eauto.
    - eapply Permutation_in; [apply Permutation_sym|]; eauto. }
  split.
  { intros c Hc. rewrite get_outcomes.
    assert (Hm : mem c sched = true).
    { apply mem_In. eapply Permutation_in; [apply Permutation_sym|]; eauto. }
    rewrite Hm. reflexivity. }
  eexists. eexists. split; [reflexivity|]. split; [reflexivity|].
  intros c. split.
  - apply NoDup_count_occ. apply NoDup_filter_str, NoDup_hits.
  - cbn [notified]. rewrite notified_app, notified_map_lookup. cbn [app].
    etransitivity; [apply count_notified_announce|].
    apply NoDup_count_occ, NoDup_hits.
Qed.

End Batch.

Lemma one_outcome_per_distinct_candidate_witness :
  Permutation
    (completionOrder rt_all_up ["acme.com"; "acme.net"; "acme.com"]%string)
    ["acme.com"; "acme.net"; "acme.com"]%string
  /\ keys (tldResults (tryTldWrapper (sf_xyz any_page) rt_all_up opts_active
                         ["acme.com"; "acme.net"; "acme.com"]%string
                         (setup "acme.org")))
     = ["acme.com"; "acme.net"]%string
  /\ NoDup (keys (tldResults (tryTldWrapper (sf_xyz any_page) rt_all_up opts_active
                         ["acme.com"; "acme.net"; "acme.com"]%string
                         (setup "acme.org")))).
Proof.
  split; [apply Permutation_refl|].
  split; [reflexivity|].
  apply (one_outcome_per_distinct_candidate (sf_xyz any_page) rt_all_up opts_active
           ["acme.com"; "acme.net"; "acme.com"]%string (setup "acme.org")).
  apply Permutation_refl.
Defined.

(** ** A proof rule for the loops of [start]

    [I] relates the pending batch and the object at the top of an iteration,
    [J] holds once a stop check has answered no, and [R] holds wherever
    [start] may return. *)

Section LoopRule.

Variable sf : SpiderFoot.
Variable rt : Runtime.
Variable opts : Opts.
Variable keyword : string.
Variable lines : list string.

Variables I J : list string -> Plugin -> Prop.
Variable R : Plugin -> Prop.

Hypothesis I_wild : forall zone tl st,
  I tl st -> I tl (emit (CheckDnsWildcard zone) st).
Hypothesis J_wild : forall zone tl st,
  J tl st -> J tl (emit (CheckDnsWildcard zone) st).
Hypothesis I_stop : forall tl st,
  I tl st ->
  if stop_requested rt (length (trace st))
  then R (emit (CheckForStop true) st)
  else J tl (emit (CheckForStop false) st).
Hypothesis J_I : forall tl st, J tl st -> I tl st.
Hypothesis J_push : forall c tl st,
  provenance sf opts keyword lines c ->
  (Z.of_nat (length tl) <= maxthreads opts)%Z ->
  J tl st -> I (tl ++ [c]) st.
Hypothesis J_flush : forall tl st,
  (maxthreads opts < Z.of_nat (length tl))%Z ->
  J tl st -> I [] (tryTldWrapper sf rt opts tl st).
Hypothesis I_left : forall tl st, I tl st -> R (leftover sf rt opts tl st).

Let loop_post := loop_post I R.

Lemma provenance_bare (tld : string) :
  In tld lines ->
  startswith "#" tld = false ->
  (skipwildcards opts = true -> checkDnsWildcard sf tld = false) ->
  provenance sf opts keyword lines (keyword ++ "." ++ tld).
Proof.
  intros Hin Hc Hw. exists tld. split; [exact Hin|]. split; [exact Hc|].
  split; [exact Hw|]. left. reflexivity.
Qed.

Lemma provenance_sub (tld s : string) :
  In tld lines ->
  startswith "#" tld = false ->
  (skipwildcards opts = true -> checkDnsWildcard sf tld = false) ->
  checkcommon opts = true ->
  In s (commontlds opts) ->
  (skipwildcards opts = true -> checkDnsWildcard sf (s ++ "." ++ tld) = false) ->
  provenance sf opts keyword lines (keyword ++ "." ++ s ++ "." ++ tld).
Proof.
  intros Hin Hc Hw Hcommon Hs Hws. exists tld.
  split; [exact Hin|]. split; [exact Hc|]. split; [exact Hw|].
  right. split; [exact Hcommon|]. exists s.
  split; [exact Hs|]. split; [exact Hws|]. reflexivity.
Qed.

Lemma enqueue_rule (c : string) (tl : list string) (st : Plugin) :
  provenance sf opts keyword lines c -> J tl st ->
  I (fst (enqueue sf rt opts c tl st)) (snd (enqueue sf rt opts c tl st)).
Proof.
  intros Hc HJ. unfold enqueue.
  destruct (Z.of_nat (length tl) <=? maxthreads opts)%Z eqn:E; simpl.
  - apply J_push; auto. apply Z.leb_le, E.
  - apply J_flush; auto. apply Z.leb_gt, E.
Qed.

Lemma sub_loop_rule (tld : string) (subs : list string) :
  In tld lines ->
  startswith "#" tld = false ->
  (skipwildcards opts = true -> checkDnsWildcard sf tld = false) ->
  checkcommon opts = true ->
  incl subs (commontlds opts) ->
  forall tl st, I tl st ->
  loop_post (sub_loop sf rt opts keyword tld subs tl st).
Proof.
  intros Hin Hcomment Hwild Hcommon.
  induction subs as [|s subs IH]; intros Hincl tl st HI; [exact HI|].
  assert (Hs : In s (commontlds opts)) by (apply Hincl; left; reflexivity).
  assert (Hrest : incl subs (commontlds opts)).
  { intros x Hx. apply Hincl. right. exact Hx. }
  cbn [sub_loop]. unfold checkForStop.
  pose proof (I_stop tl st HI) as Hstop.
  destruct (stop_requested rt (length (trace st))); [exact Hstop|].
  unfold wildcard_skipped.
  destruct (skipwildcards opts) eqn:Hskip.
  - destruct (checkDnsWildcard sf (s ++ "." ++ tld)) eqn:Hw.
    + apply IH; auto.
    + assert (Hp : provenance sf opts keyword lines
                     (keyword ++ "." ++ s ++ "." ++ tld)).
      { apply provenance_sub; auto. }
      pose proof (enqueue_rule _ tl _ Hp
                    (J_wild (s ++ "." ++ tld)%string _ _ Hstop)) as He.
      destruct (enqueue sf rt opts _ tl _) as [tl' st']. apply IH; auto.
  - assert (Hp : provenance sf opts keyword lines
                   (keyword ++ "." ++ s ++ "." ++ tld)).
    { apply provenance_sub; auto; intros; congruence. }
    pose proof (enqueue_rule _ tl _ Hp Hstop) as He.
    destruct (enqueue sf rt opts _ tl _) as [tl' st']. apply IH; auto.
Qed.

Lemma tld_loop_rule (ls : list string) :
  incl ls lines ->
  forall tl st, I tl st ->
  loop_post (tld_loop sf rt opts keyword ls tl st).
Proof.
  induction ls as [|tld ls IH]; intros Hincl tl st HI; [exact HI|].
  assert (Hin : In tld lines) by (apply Hincl; left; reflexivity).
  assert (Hrest : incl ls lines).
  { intros x Hx. apply Hincl. right. exact Hx. }
  cbn [tld_loop].
  destruct (startswith "#" tld) eqn:Hcomment; [apply IH; auto|].
  assert (Hgo : forall st0,
    (skipwildcards opts = true -> checkDnsWildcard sf tld = false) ->
    I tl st0 ->
    loop_post
      (let (stop, st1) := checkForStop rt st0 in
       if stop then (None, st1)
       else
         let (targetList, st2) :=
           enqueue sf rt opts (keyword ++ "." ++ tld) tl st1 in
         if checkcommon opts then
           match sub_loop sf rt opts keyword tld (commontlds opts) targetList st2 with
           | (None, st3) => (None, st3)
           | (Some targetList0, st3) =>
               tld_loop sf rt opts keyword ls targetList0 st3
           end
         else tld_loop sf rt opts keyword ls targetList st2)).
  { intros st0 Hwild HI0. unfold checkForStop.
    pose proof (I_stop tl st0 HI0) as Hstop.
    destruct (stop_requested rt (length (trace st0))); [exact Hstop|].
    pose proof (enqueue_rule _ tl _ (provenance_bare tld Hin Hcomment Hwild)
                  Hstop) as He.
    destruct (enqueue sf rt opts _ tl _) as [tl' st']. cbn [fst snd] in He.
    destruct (checkcommon opts) eqn:Hcommon; [|apply IH; auto].
    pose proof (sub_loop_rule tld (commontlds opts) Hin Hcomment Hwild Hcommon
                  (incl_refl _) tl' st' He) as Hsub.
    destruct (sub_loop sf rt opts keyword tld (commontlds opts) tl' st')
      as [[tl''|] st'']; [apply IH; auto | exact Hsub]. }
  unfold wildcard_skipped.
  destruct (skipwildcards opts) eqn:Hskip.
  - destruct (checkDnsWildcard sf tld) eqn:Hw.
    + apply IH; auto.
    + apply Hgo; auto.
  - apply Hgo; auto. intros; congruence.
Qed.

Lemma scan_rule (st : Plugin) :
  I [] st -> R (scan sf rt opts keyword lines st).
Proof.
  intros HI. unfold scan.
  pose proof (tld_loop_rule lines (incl_refl _) [] st HI) as H.
  destruct (tld_loop sf rt opts keyword lines [] st) as [[tl|] st'].
  - apply I_left, H.
  - exact H.
Qed.

End LoopRule.

Lemma start_scan (sf : SpiderFoot) (rt : Runtime) (opts : Opts) (st : Plugin) :
  start sf rt opts st =
  let keyword := domainKeyword sf (baseDomain st) in
  let st1 :=
    emit (FetchUrl (tldlist opts))
      (emit (SfDebug ("Keyword extracted from " ++ baseDomain st ++ ": "
                      ++ keyword)%string) st) in
  match fetchUrl sf (tldlist opts) with
  | None => emit (SfError ("Unable to obtain TLD list from " ++ tldlist opts)%string) st1
  | Some content => scan sf rt opts keyword (splitlines (lower content)) st1
  end.
Proof.
  unfold start, scan. cbv zeta.
  destruct (fetchUrl sf (tldlist opts)); reflexivity.
Qed.

Lemma batches_tryTldWrapper (sf : SpiderFoot) (rt : Runtime) (opts : Opts)
    (tl : list string) (st : Plugin) :
  batches (trace (tryTldWrapper sf rt opts tl st)) = batches (trace st) ++ [tl].
Proof.
  rewrite tryTldWrapper_eq. cbv zeta. cbn [trace].
  rewrite batches_app. cbn [batches].
  rewrite batches_app, batches_map_lookup, batches_announce_effects.
  reflexivity.
Qed.

(** ** The target is never reported *)

Section Target.

Variable sf : SpiderFoot.
Variable rt : Runtime.
Variable opts : Opts.
Variable target : string.

Lemma clean_emit (e : Effect) (st : Plugin) :
  notified [e] = [] -> clean target st -> clean target (emit e st).
Proof.
  intros He (Hb & Hr & Hn). unfold clean, emit. cbn [baseDomain results trace].
  rewrite notified_app, He, app_nil_r. auto.
Qed.

Lemma clean_tryTldWrapper (tl : list string) (st : Plugin) :
  clean target st -> clean target (tryTldWrapper sf rt opts tl st).
Proof.
  intros (Hb & Hr & Hn). rewrite tryTldWrapper_eq. cbv zeta.
  unfold clean. cbn [baseDomain results trace]. rewrite Hb.
  split; [reflexivity|]. split.
  - rewrite in_app_iff, filter_In. intros [H|[_ H]]; [auto|].
    unfold differs in H. rewrite String.eqb_refl in H. discriminate.
  - rewrite notified_app. cbn [notified].
    rewrite notified_app, notified_map_lookup. cbn [app].
    rewrite in_app_iff. intros [H|H]; [auto|].
    exact (notified_announce_not_target sf rt opts target _ _ H).
Qed.

Lemma clean_scan (keyword : string) (lines : list string) (st : Plugin) :
  clean target st -> clean target (scan sf rt opts keyword lines st).
Proof.
  apply (scan_rule sf rt opts keyword lines
           (fun _ => clean target) (fun _ => clean target) (clean target)).
  - intros zone tl st0. apply clean_emit. reflexivity.
  - intros zone tl st0. apply clean_emit. reflexivity.
  - intros tl st0 H.
    destruct (stop_requested rt (length (trace st0)));
      apply clean_emit; auto.
  - auto.
  - auto.
  - intros tl st0 _. apply clean_tryTldWrapper.
  - intros tl st0 H. unfold leftover.
    destruct (0 <? length tl)%nat; [apply clean_tryTldWrapper|]; exact H.
Qed.

Lemma clean_start (st : Plugin) :
  clean target st -> clean target (start sf rt opts st).
Proof.
  intros H. rewrite start_scan. cbv zeta.
  destruct (fetchUrl sf (tldlist opts)).
  - apply clean_scan. repeat apply clean_emit; auto.
  - repeat apply clean_emit; auto.
Qed.

(** C6.  [sendEvent] on the target itself changes nothing: the target is not
    appended to [results] and no event is sent for it.  Hence after a whole
    run the target is neither in [results] nor among the events sent. *)
Theorem target_is_never_reported (source : option string) (st : Plugin) :
  sendEvent sf rt opts source (baseDomain st) st = st
  /\ ~ In target (results (start sf rt opts (setup target)))
  /\ ~ In target (notified (trace (start sf rt opts (setup target)))).
Proof.
  split; [apply sendEvent_target|].
  assert (H : clean target (start sf rt opts (setup target))).
  { apply clean_start. unfold clean, setup. simpl. tauto. }
  destruct H as (_ & Hr & Hn). split; assumption.
Qed.

End Target.

(** The target resolves like any other candidate and is left out. *)
Example target_left_out :
  let st := start (sf_sample (Some ("org" ++ nl ++ "xyz")%string) any_page no_wildcards)
      rt_all_up opts_active (setup "acme.org") in
  batches (trace st) = [["acme.org"; "acme.xyz"]%string]
  /\ results st = ["acme.xyz"%string].
Proof. vm_compute. split; reflexivity. Qed.

(** ** Wildcard zones *)

Section Wildcards.

Variable sf : SpiderFoot.
Variable rt : Runtime.
Variable opts : Opts.

Lemma sourced_emit (keyword : string) (lines : list string) (e : Effect)
    (tl : list string) (st : Plugin) :
  batches [e] = [] ->
  sourced sf opts keyword lines tl st ->
  sourced sf opts keyword lines tl (emit e st).
Proof.
  intros He [Htl Hb]. split; [exact Htl|].
  unfold emit. cbn [trace]. rewrite batches_app, He, app_nil_r. exact Hb.
Qed.

Lemma sourced_flush (keyword : string) (lines : list string)
    (tl : list string) (st : Plugin) :
  sourced sf opts keyword lines tl st ->
  sourced sf opts keyword lines [] (tryTldWrapper sf rt opts tl st).
Proof.
  intros [Htl Hb]. split; [constructor|].
  rewrite batches_tryTldWrapper. apply Forall_app. split; [exact Hb|].
  constructor; [exact Htl | constructor].
Qed.

Lemma sourced_scan (keyword : string) (lines : list string) (st : Plugin) :
  batches (trace st) = [] ->
  Forall (Forall (provenance sf opts keyword lines))
    (batches (trace (scan sf rt opts keyword lines st))).
Proof.
  intros Hst.
  apply (scan_rule sf rt opts keyword lines
           (sourced sf opts keyword lines) (sourced sf opts keyword lines)
           (fun st' => Forall (Forall (provenance sf opts keyword lines))
                         (batches (trace st')))).
  - intros zone tl st0. apply sourced_emit. reflexivity.
  - intros zone tl st0. apply sourced_emit. reflexivity.
  - intros tl st0 H.
    destruct (stop_requested rt (length (trace st0))).
    + apply (sourced_emit keyword lines (CheckForStop true) tl st0 eq_refl H).
    + apply sourced_emit; auto.
  - auto.
  - intros c tl st0 Hc _ [Htl Hb]. split; [|exact Hb].
    apply Forall_app. split; [exact Htl | constructor; [exact Hc | constructor]].
  - intros tl st0 _. apply sourced_flush.
  - intros tl st0 H. unfold leftover.
    destruct (0 <? length tl)%nat; [apply sourced_flush|]; apply H.
  - split; [constructor|]. rewrite Hst. constructor.
Qed.

(** C1, as the code has it.  With [skipwildcards] set, a line of the TLD list
    that is a wildcard zone is passed over as a whole: the iteration leaves
    the pending batch as it was and dispatches nothing, so neither the bare
    candidate nor any sub-TLD candidate is made from that line.  Over a whole
    run, every candidate of every dispatched batch comes from a line that is
    not a comment and not a wildcard zone: it is [keyword.tld], or
    [keyword.s.tld] for a common sub-TLD [s] whose zone [s.tld] is not a
    wildcard. *)
Theorem wildcard_tld_is_skipped_whole :
  (forall keyword tld rest tl st,
     skipwildcards opts = true ->
     startswith "#" tld = false ->
     checkDnsWildcard sf tld = true ->
     tld_loop sf rt opts keyword (tld :: rest) tl st
     = tld_loop sf rt opts keyword rest tl (emit (CheckDnsWildcard tld) st))
  /\ (forall target batch c,
        In batch (batches (trace (start sf rt opts (setup target)))) ->
        In c batch ->
        exists content,
          fetchUrl sf (tldlist opts) = Some content
          /\ provenance sf opts (domainKeyword sf target)
               (splitlines (lower content)) c).
Proof.
  split.
  - intros keyword tld rest tl st Hskip Hc Hw.
    cbn [tld_loop]. rewrite Hc. unfold wildcard_skipped. rewrite Hskip, Hw.
    reflexivity.
  - intros target batch c Hb Hc. rewrite start_scan in Hb. cbv zeta in Hb.
    destruct (fetchUrl sf (tldlist opts)) as [content|].
    + exists content. split; [reflexivity|].
      cbn [baseDomain setup] in Hb.
      match type of Hb with
      | context [scan _ _ _ _ _ ?s] =>
          pose proof (sourced_scan (domainKeyword sf target)
                        (splitlines (lower content)) s eq_refl) as H
      end.
      rewrite Forall_forall in H. specialize (H batch Hb).
      rewrite Forall_forall in H. exact (H c Hc).
    + simpl in Hb. contradiction.
Qed.

End Wildcards.

(** C1, where the claim fails: [biz] is a wildcard zone and [com.biz] is not,
    sub-TLDs are tried and nothing stops the run, yet [acme.com.biz] is never
    dispatched: the only batch of the run holds the candidates of [xyz]. *)
Lemma sub_tld_of_wildcard_not_considered :
  skipwildcards opts_common = true
  /\ checkcommon opts_common = true
  /\ In "com"%string (commontlds opts_common)
  /\ biz_is_wild "biz" = true
  /\ biz_is_wild "com.biz" = false
  /\ batches (trace (start (sf_sample (Some ("biz" ++ nl ++ "xyz")%string)
                              any_page biz_is_wild)
                       rt_all_up opts_common (setup "acme.org")))
     = [["acme.xyz"; "acme.com.xyz"]%string].
Proof. vm_compute. repeat split; auto. Qed.

Lemma wildcard_tld_is_skipped_whole_witness :
  (skipwildcards opts_common = true
   /\ startswith "#" "biz" = false
   /\ biz_is_wild "biz" = true)
  /\ tld_loop (sf_sample None any_page biz_is_wild) rt_all_up opts_common
       "acme" ["biz"; "xyz"]%string [] (setup "acme.org")
     = tld_loop (sf_sample None any_page biz_is_wild) rt_all_up opts_common
         "acme" ["xyz"%string] [] (emit (CheckDnsWildcard "biz") (setup "acme.org")).
Proof.
  split; [repeat split|].
  apply (proj1 (wildcard_tld_is_skipped_whole
                  (sf_sample None any_page biz_is_wild) rt_all_up opts_common));
    reflexivity.
Defined.

(** ** Cancellation *)

Lemma stop_requested_mono (rt : Runtime) (n m : nat) :
  n <= m -> stop_requested rt n = true -> stop_requested rt m = true.
Proof.
  unfold stop_requested. destruct (cancelAt rt) as [t|]; [|discriminate].
  intros Hle H. apply Nat.leb_le in H. apply Nat.leb_le. lia.
Qed.









Section Cancellation.

Variable sf : SpiderFoot.
Variable rt : Runtime.
Variable opts : Opts.











End Cancellation.



(** ** Batching *)

Section BatchSize.

Variable sf : SpiderFoot.
Variable rt : Runtime.
Variable opts : Opts.

Lemma bounded_emit (n : Z) (e : Effect) (tl : list string) (st : Plugin) :
  batches [e] = [] -> bounded n tl st -> bounded n tl (emit e st).
Proof.
  intros He [Htl Hb]. split; [exact Htl|].
  unfold emit. cbn [trace]. rewrite batches_app, He, app_nil_r. exact Hb.
Qed.

Lemma bounded_flush (n : Z) (tl : list string) (st : Plugin) :
  (0 <= n)%Z -> bounded n tl st ->
  bounded n [] (tryTldWrapper sf rt opts tl st).
Proof.
  intros Hn [Htl Hb]. split; [simpl; lia|].
  rewrite batches_tryTldWrapper. apply Forall_app. split; [exact Hb|].
  constructor; [exact Htl | constructor].
Qed.

(** What the code does keep: a batch handed to [tryTldWrapper] never holds
    more than [maxthreads + 1] candidates. *)
Theorem batch_size_at_most_maxthreads_plus_one (target : string)
    (batch : list string) :
  (0 <= maxthreads opts)%Z ->
  In batch (batches (trace (start sf rt opts (setup target)))) ->
  (Z.of_nat (length batch) <= maxthreads opts + 1)%Z.
Proof.
  intros Hmax Hin. rewrite start_scan in Hin. cbv zeta in Hin.
  destruct (fetchUrl sf (tldlist opts)) as [content|]; [|simpl in Hin; contradiction].
  match type of Hin with
  | context [scan _ _ _ ?kw ?ls ?s] =>
      assert (H : Forall (fun b => (Z.of_nat (length b) <= maxthreads opts + 1)%Z)
                    (batches (trace (scan sf rt opts kw ls s))))
  end.
  { apply (scan_rule sf rt opts _ _
             (bounded (maxthreads opts + 1)) (bounded (maxthreads opts + 1))
             (fun st' => Forall (fun b => (Z.of_nat (length b) <= maxthreads opts + 1)%Z)
                           (batches (trace st')))).
    - intros zone tl st0. apply bounded_emit. reflexivity.
    - intros zone tl st0. apply bounded_emit. reflexivity.
    - intros tl st0 H.
      destruct (stop_requested rt (length (trace st0))).
      + apply (bounded_emit _ (CheckForStop true) tl st0 eq_refl H).
      + apply bounded_emit; auto.
    - auto.
    - intros c tl st0 _ Hle [Htl Hb]. split; [|exact Hb].
      rewrite length_app. simpl. lia.
    - intros tl st0 _. apply bounded_flush. lia.
    - intros tl st0 H. unfold leftover.
      destruct (0 <? length tl)%nat; [apply bounded_flush; [lia | exact H]|].
      apply H.
    - split; [simpl; lia | constructor]. }
  rewrite Forall_forall in H. exact (H batch Hin).
Qed.

End BatchSize.

Lemma batch_size_at_most_maxthreads_plus_one_witness :
  (0 <= maxthreads (opts_passive 2))%Z
  /\ In ["acme.com"; "acme.net"; "acme.org"]%string
       (batches (trace (start sf_five rt_all_up (opts_passive 2) (setup "acme.org"))))
  /\ (Z.of_nat (length ["acme.com"; "acme.net"; "acme.org"]%string)
      <= maxthreads (opts_passive 2) + 1)%Z.
Proof.
  assert (H : In ["acme.com"; "acme.net"; "acme.org"]%string
       (batches (trace (start sf_five rt_all_up (opts_passive 2) (setup "acme.org")))))
    by (vm_compute; left; reflexivity).
  split; [vm_compute; discriminate|]. split; [exact H|].
  apply (batch_size_at_most_maxthreads_plus_one sf_five rt_all_up (opts_passive 2)
           "acme.org"%string _ ltac:(vm_compute; discriminate) H).
Defined.

(** C2, on the code: with [maxthreads = 1] and the four lines [com], [net],
    [org], [xyz], none a comment or a wildcard, the candidate [acme.org]
    reaches a full batch, the batch is flushed and the candidate is not kept:
    it is in no dispatched batch. *)
Theorem candidate_dropped_at_flush :
  splitlines (lower ("com" ++ nl ++ "net" ++ nl ++ "org" ++ nl ++ "xyz")%string)
  = ["com"; "net"; "org"; "xyz"]%string
  /\ batches (trace (start sf_four rt_all_up (opts_passive 1) (setup "acme.org")))
     = [["acme.com"; "acme.net"]; ["acme.xyz"]]%string.
Proof. vm_compute. split; reflexivity. Qed.

(** C3, on the code: with [maxthreads = 2] the first batch handed to
    [tryTldWrapper] holds three candidates. *)
Theorem batch_exceeds_maxthreads :
  maxthreads (opts_passive 2) = 2%Z
  /\ batches (trace (start sf_five rt_all_up (opts_passive 2) (setup "acme.org")))
     = [["acme.com"; "acme.net"; "acme.org"]; ["acme.biz"]]%string.
Proof. vm_compute. split; reflexivity. Qed.

(** ** The order of the reports *)

Section Order.

Variable sf : SpiderFoot.
Variable opts : Opts.
Variables rt1 rt2 : Runtime.
Hypothesis Hagree : agree rt1 rt2.

Lemma stop_requested_agree (n : nat) :
  stop_requested rt1 n = stop_requested rt2 n.
Proof.
  destruct Hagree as (_ & _ & Hc). unfold stop_requested. rewrite Hc. reflexivity.
Qed.

Lemma checkForStop_agree (st : Plugin) : checkForStop rt1 st = checkForStop rt2 st.
Proof. unfold checkForStop. rewrite stop_requested_agree. reflexivity. Qed.

Lemma sendEvent_effects_agree (r : string) (n : nat) :
  sendEvent_effects sf rt1 opts r n = sendEvent_effects sf rt2 opts r n.
Proof. unfold sendEvent_effects. rewrite stop_requested_agree. reflexivity. Qed.

Lemma announce_effects_agree (target : string) (l : list string) (n : nat) :
  announce_effects sf rt1 opts target l n = announce_effects sf rt2 opts target l n.
Proof.
  revert n. induction l as [|r l IH]; intros n; [reflexivity|].
  cbn [announce_effects]. cbv zeta.
  rewrite sendEvent_effects_agree, !IH. reflexivity.
Qed.

Lemma outcomes_agree (sched : list string) (d : dict) :
  outcomes rt1 sched d = outcomes rt2 sched d.
Proof.
  destruct Hagree as (Hr & _ & _).
  revert d. induction sched as [|t sched IH]; intros d; [reflexivity|].
  unfold outcomes in *. simpl. rewrite Hr. apply IH.
Qed.

Lemma hits_agree (sched : list string) : hits rt1 sched = hits rt2 sched.
Proof.
  destruct Hagree as (Hr & _ & _). unfold hits.
  apply filter_ext. exact Hr.
Qed.

Lemma tryTldWrapper_agree (tl : list string) (st : Plugin) :
  tryTldWrapper sf rt1 opts tl st = tryTldWrapper sf rt2 opts tl st.
Proof.
  rewrite !tryTldWrapper_eq. cbv zeta.
  destruct Hagree as (_ & Ho & _). rewrite Ho.
  rewrite outcomes_agree, hits_agree, announce_effects_agree. reflexivity.
Qed.

Lemma enqueue_agree (c : string) (tl : list string) (st : Plugin) :
  enqueue sf rt1 opts c tl st = enqueue sf rt2 opts c tl st.
Proof. unfold enqueue. rewrite tryTldWrapper_agree. reflexivity. Qed.

Lemma sub_loop_agree (keyword tld : string) (subs tl : list string) (st : Plugin) :
  sub_loop sf rt1 opts keyword tld subs tl st
  = sub_loop sf rt2 opts keyword tld subs tl st.
Proof.
  revert tl st. induction subs as [|s subs IH]; intros tl st; [reflexivity|].
  cbn [sub_loop]. rewrite checkForStop_agree.
  destruct (checkForStop rt2 st) as [[|] st1]; [reflexivity|].
  destruct (wildcard_skipped sf opts _ st1) as [[|] st2]; [apply IH|].
  rewrite enqueue_agree.
  destruct (enqueue sf rt2 opts _ tl st2) as [tl' st3]. apply IH.
Qed.

Lemma tld_loop_agree (keyword : string) (lines tl : list string) (st : Plugin) :
  tld_loop sf rt1 opts keyword lines tl st
  = tld_loop sf rt2 opts keyword lines tl st.
Proof.
  revert tl st. induction lines as [|tld lines IH]; intros tl st; [reflexivity|].
  cbn [tld_loop]. destruct (startswith "#" tld); [apply IH|].
  destruct (wildcard_skipped sf opts tld st) as [[|] st1]; [apply IH|].
  rewrite checkForStop_agree.
  destruct (checkForStop rt2 st1) as [[|] st2]; [reflexivity|].
  rewrite enqueue_agree.
  destruct (enqueue sf rt2 opts _ tl st2) as [tl' st3].
  destruct (checkcommon opts); [|apply IH].
  rewrite sub_loop_agree.
  destruct (sub_loop sf rt2 opts keyword tld (commontlds opts) tl' st3)
    as [[tl''|] st4]; [apply IH | reflexivity].
Qed.

Lemma start_agree (st : Plugin) : start sf rt1 opts st = start sf rt2 opts st.
Proof.
  unfold start. cbv zeta.
  destruct (fetchUrl sf (tldlist opts)); [|reflexivity].
  rewrite tld_loop_agree.
  destruct (tld_loop sf rt2 opts _ _ [] _) as [[tl|] st']; [|reflexivity].
  unfold leftover. rewrite tryTldWrapper_agree. reflexivity.
Qed.

End Order.

(** Without [activeonly] a run looks at the pages of no candidate, and of a
    lookup it uses only whether it succeeded. *)
Section Independence.

Variables sf1 sf2 : SpiderFoot.
Variables rt1 rt2 : Runtime.
Variable opts : Opts.
Hypothesis Hpassive : activeonly opts = false.
Hypothesis Hwild :
  skipwildcards opts = true ->
  forall zone, checkDnsWildcard sf1 zone = checkDnsWildcard sf2 zone.
Hypothesis Hagree : agree rt1 rt2.

Lemma sendEvent_effects_passive (sf : SpiderFoot) (rt : Runtime) (r : string)
    (n : nat) :
  sendEvent_effects sf rt opts r n
  = [SfInfoFound r; NotifyListeners (similar_domain r)].
Proof. unfold sendEvent_effects. rewrite Hpassive. reflexivity. Qed.

Lemma announce_effects_passive (target : string) (l : list string) (n m : nat) :
  announce_effects sf1 rt1 opts target l n
  = announce_effects sf2 rt2 opts target l m.
Proof.
  revert n m. induction l as [|r l IH]; intros n m; [reflexivity|].
  cbn [announce_effects]. cbv zeta.
  destruct (String.eqb r target); [apply IH|].
  rewrite !sendEvent_effects_passive. f_equal. apply IH.
Qed.

Lemma tryTldWrapper_passive (tl : list string) (st : Plugin) :
  tryTldWrapper sf1 rt1 opts tl st = tryTldWrapper sf2 rt2 opts tl st.
Proof.
  rewrite !tryTldWrapper_eq. cbv zeta.
  destruct Hagree as (_ & Ho & _). rewrite Ho.
  rewrite (outcomes_agree rt1 rt2 Hagree), (hits_agree rt1 rt2 Hagree).
  rewrite (announce_effects_passive _ _ _ (length (trace st) + 1 + length tl)).
  reflexivity.
Qed.

Lemma wildcard_skipped_passive (zone : string) (st : Plugin) :
  wildcard_skipped sf1 opts zone st = wildcard_skipped sf2 opts zone st.
Proof.
  unfold wildcard_skipped. destruct (skipwildcards opts) eqn:E; [|reflexivity].
  rewrite (Hwild eq_refl). reflexivity.
Qed.

Lemma enqueue_passive (c : string) (tl : list string) (st : Plugin) :
  enqueue sf1 rt1 opts c tl st = enqueue sf2 rt2 opts c tl st.
Proof. unfold enqueue. rewrite tryTldWrapper_passive. reflexivity. Qed.

Lemma sub_loop_passive (keyword tld : string) (subs tl : list string)
    (st : Plugin) :
  sub_loop sf1 rt1 opts keyword tld subs tl st
  = sub_loop sf2 rt2 opts keyword tld subs tl st.
Proof.
  revert tl st. induction subs as [|s subs IH]; intros tl st; [reflexivity|].
  cbn [sub_loop]. rewrite (checkForStop_agree rt1 rt2 Hagree).
  destruct (checkForStop rt2 st) as [[|] st1]; [reflexivity|].
  rewrite wildcard_skipped_passive.
  destruct (wildcard_skipped sf2 opts _ st1) as [[|] st2]; [apply IH|].
  rewrite enqueue_passive.
  destruct (enqueue sf2 rt2 opts _ tl st2) as [tl' st3]. apply IH.
Qed.

Lemma tld_loop_passive (keyword : string) (lines tl : list string) (st : Plugin) :
  tld_loop sf1 rt1 opts keyword lines tl st
  = tld_loop sf2 rt2 opts keyword lines tl st.
Proof.
  revert tl st. induction lines as [|tld lines IH]; intros tl st; [reflexivity|].
  cbn [tld_loop]. destruct (startswith "#" tld); [apply IH|].
  rewrite wildcard_skipped_passive.
  destruct (wildcard_skipped sf2 opts tld st) as [[|] st1]; [apply IH|].
  rewrite (checkForStop_agree rt1 rt2 Hagree).
  destruct (checkForStop rt2 st1) as [[|] st2]; [reflexivity|].
  rewrite enqueue_passive.
  destruct (enqueue sf2 rt2 opts _ tl st2) as [tl' st3].
  destruct (checkcommon opts); [|apply IH].
  rewrite sub_loop_passive.
  destruct (sub_loop sf2 rt2 opts keyword tld (commontlds opts) tl' st3)
    as [[tl''|] st4]; [apply IH | reflexivity].
Qed.

Lemma start_passive (st : Plugin) :
  domainKeyword sf1 (baseDomain st) = domainKeyword sf2 (baseDomain st) ->
  fetchUrl sf1 (tldlist opts) = fetchUrl sf2 (tldlist opts) ->
  start sf1 rt1 opts st = start sf2 rt2 opts st.
Proof.
  intros Hk Hl. unfold start. cbv zeta. rewrite Hk, Hl.
  destruct (fetchUrl sf2 (tldlist opts)); [|reflexivity].
  rewrite tld_loop_passive.
  destruct (tld_loop sf2 rt2 opts _ _ [] _) as [[tl|] st']; [|reflexivity].
  unfold leftover. rewrite tryTldWrapper_passive. reflexivity.
Qed.

End Independence.

Section ReportOrder.

Variable sf : SpiderFoot.
Variable rt : Runtime.
Variable opts : Opts.

(** C8, as the code has it.  The resolving candidates of a batch are
    reported in the order of the keys of [tldResults], that is in the order
    in which the workers first wrote them, each distinct candidate once; this
    is the input order of the batch when the workers finish in the order they
    were started and the batch has no repeated candidate.  Two runs without
    [activeonly], under the same options, end in the same state, so with the
    same ordered [results], when they are given the same keyword and the same
    TLD list, the same wildcard answers if [skipwildcards] is set, lookups
    that succeed for the same names, workers that finish in the same order
    and a stop flag that goes up at the same moment; the addresses and the
    errors of the lookups and the pages of the candidates may differ. *)
Theorem reports_follow_completion_order :
  (forall tldList st,
     results (tryTldWrapper sf rt opts tldList st)
     = results st
       ++ filter (differs (baseDomain st))
            (filter (resolves rt) (uniq (completionOrder rt tldList))))
  /\ (forall tldList st,
        activeonly opts = false ->
        notified (trace (tryTldWrapper sf rt opts tldList st))
        = notified (trace st)
          ++ filter (differs (baseDomain st))
               (filter (resolves rt) (uniq (completionOrder rt tldList))))
  /\ (forall tldList st,
        completionOrder rt tldList = tldList ->
        NoDup tldList ->
        results (tryTldWrapper sf rt opts tldList st)
        = results st
          ++ filter (differs (baseDomain st)) (filter (resolves rt) tldList))
  /\ (forall sf' rt' st,
        activeonly opts = false ->
        domainKeyword sf (baseDomain st) = domainKeyword sf' (baseDomain st) ->
        fetchUrl sf (tldlist opts) = fetchUrl sf' (tldlist opts) ->
        (skipwildcards opts = true ->
         forall zone, checkDnsWildcard sf zone = checkDnsWildcard sf' zone) ->
        agree rt rt' ->
        start sf rt opts st = start sf' rt' opts st).
Proof.
  split; [|split; [|split]].
  - intros tldList st. rewrite tryTldWrapper_eq. reflexivity.
  - intros tldList st Hact. rewrite tryTldWrapper_eq. cbv zeta. cbn [trace].
    rewrite notified_app. cbn [notified].
    rewrite notified_app, notified_map_lookup, notified_announce_passive; auto.
  - intros tldList st Ho Hnd. rewrite tryTldWrapper_eq. cbv zeta. cbn [results].
    unfold hits. rewrite Ho, uniq_NoDup_id; auto.
  - intros sf' rt' st Hact Hk Hl Hw Ha. apply start_passive; assumption.
Qed.

End ReportOrder.

(** Two worlds that differ in the pages they serve and in the addresses the
    lookups return, and agree on the rest. *)
Lemma reports_follow_completion_order_witness :
  (fetchUrl sf_two "http://acme.com" <> fetchUrl sf_two_silent "http://acme.com"
   /\ gethostbyname_ex rt_all_up "acme.com" <> gethostbyname_ex rt_moved "acme.com")
  /\ (activeonly (opts_passive 100) = false
      /\ domainKeyword sf_two (baseDomain (setup "acme.org"))
         = domainKeyword sf_two_silent (baseDomain (setup "acme.org"))
      /\ fetchUrl sf_two (tldlist (opts_passive 100))
         = fetchUrl sf_two_silent (tldlist (opts_passive 100))
      /\ agree rt_all_up rt_moved)
  /\ start sf_two rt_all_up (opts_passive 100) (setup "acme.org")
     = start sf_two_silent rt_moved (opts_passive 100) (setup "acme.org").
Proof.
  assert (H : agree rt_all_up rt_moved).
  { split; [|split]; intros; reflexivity. }
  split; [split; discriminate|].
  split; [repeat split; exact H|].
  apply (proj2 (proj2 (proj2 (reports_follow_completion_order sf_two rt_all_up
                                (opts_passive 100))))
           sf_two_silent rt_moved (setup "acme.org")).
  - reflexivity.
  - reflexivity.
  - reflexivity.
  - intros _ zone. reflexivity.
  - exact H.
Defined.

(** C8, where the claim fails: the same TLD list, the same answer to every
    lookup, [activeonly] off; the batch is [acme.com; acme.net].  When the
    worker of [acme.net] finishes first the candidates are reported in the
    opposite order, so the report is not in input order and the two runs end
    with different [results]. *)
Lemma report_order_depends_on_workers :
  (forall t, gethostbyname_ex rt_all_up t = gethostbyname_ex rt_reversed t)
  /\ batches (trace (start sf_two rt_reversed (opts_passive 100) (setup "acme.org")))
     = [["acme.com"; "acme.net"]%string]
  /\ results (start sf_two rt_reversed (opts_passive 100) (setup "acme.org"))
     = ["acme.net"; "acme.com"]%string
  /\ notified (trace (start sf_two rt_reversed (opts_passive 100) (setup "acme.org")))
     = ["acme.net"; "acme.com"]%string
  /\ results (start sf_two rt_all_up (opts_passive 100) (setup "acme.org"))
     = ["acme.com"; "acme.net"]%string.
Proof. split; [reflexivity|]. vm_compute. repeat split; reflexivity. Qed.

(** * Further properties of a run *)

Lemma lookups_app (tr1 tr2 : list Effect) :
  lookups (tr1 ++ tr2) = lookups tr1 ++ lookups tr2.
Proof.
  induction tr1 as [|e tr1 IH]; simpl; [reflexivity|].
  destruct e; simpl; rewrite IH; reflexivity.
Qed.

Lemma fetched_app (tr1 tr2 : list Effect) :
  fetched (tr1 ++ tr2) = fetched tr1 ++ fetched tr2.
Proof.
  induction tr1 as [|e tr1 IH]; simpl; [reflexivity|].
  destruct e; simpl; rewrite IH; reflexivity.
Qed.

Lemma probes_app (tr1 tr2 : list Effect) :
  probes (tr1 ++ tr2) = probes tr1 ++ probes tr2.
Proof.
  induction tr1 as [|e tr1 IH]; simpl; [reflexivity|].
  destruct e; simpl; rewrite IH; reflexivity.
Qed.

(** The calls are made in the order the threads are started, the reports
    follow the order in which the workers finish. *)
Example calls_in_start_order :
  let st := start sf_two rt_reversed (opts_passive 100) (setup "acme.org") in
  lookups (trace st) = ["acme.com"; "acme.net"]%string
  /\ results st = ["acme.net"; "acme.com"]%string.
Proof. vm_compute. split; reflexivity. Qed.

Lemma lookups_map_lookup (l : list string) : lookups (map GetHostByName l) = l.
Proof. induction l as [|a l IH]; simpl; [|rewrite IH]; reflexivity. Qed.

Lemma fetched_map_lookup (l : list string) : fetched (map GetHostByName l) = [].
Proof. induction l; simpl; auto. Qed.

Lemma probes_map_lookup (l : list string) : probes (map GetHostByName l) = [].
Proof. induction l; simpl; auto. Qed.

Section Announce.

Variable sf : SpiderFoot.
Variable rt : Runtime.
Variable opts : Opts.

Lemma lookups_announce_effects (target : string) (l : list string) (n : nat) :
  lookups (announce_effects sf rt opts target l n) = [].
Proof.
  revert n. induction l as [|r l IH]; intros n; [reflexivity|].
  cbn [announce_effects]. destruct (String.eqb r target); [apply IH|].
  cbv zeta. rewrite lookups_app, IH, app_nil_r.
  unfold sendEvent_effects.
  destruct (activeonly opts); [|reflexivity].
  destruct (stop_requested rt (S n)); [reflexivity|].
  destruct (fetchUrl sf _); reflexivity.
Qed.

Lemma probes_announce_effects (target : string) (l : list string) (n : nat) :
  probes (announce_effects sf rt opts target l n) = [].
Proof.
  revert n. induction l as [|r l IH]; intros n; [reflexivity|].
  cbn [announce_effects]. destruct (String.eqb r target); [apply IH|].
  cbv zeta. rewrite probes_app, IH, app_nil_r.
  unfold sendEvent_effects.
  destruct (activeonly opts); [|reflexivity].
  destruct (stop_requested rt (S n)); [reflexivity|].
  destruct (fetchUrl sf _); reflexivity.
Qed.

Lemma In_notified_announce (target : string) (l : list string) (n : nat)
    (c : string) :
  In c (notified (announce_effects sf rt opts target l n)) ->
  In c (filter (differs target) l).
Proof.
  intros H. apply filter_In. split.
  - pose proof (count_notified_announce sf rt opts target l n c) as Hc.
    apply (count_occ_In string_dec) in H.
    apply (count_occ_In string_dec). lia.
  - unfold differs. destruct (String.eqb c target) eqn:E; [|reflexivity].
    apply String.eqb_eq in E. subst c.
    exfalso. exact (notified_announce_not_target sf rt opts target l n H).
Qed.

Lemma In_fetched_announce (target : string) (l : list string) (n : nat)
    (u : string) :
  In u (fetched (announce_effects sf rt opts target l n)) ->
  activeonly opts = true
  /\ exists r, In r (filter (differs target) l) /\ u = ("http://" ++ r)%string.
Proof.
  revert n. induction l as [|r l IH]; intros n H; [simpl in H; contradiction|].
  cbn [announce_effects] in H. cbn [filter]. unfold differs at 1.
  destruct (String.eqb r target); cbn [negb].
  - apply IH in H. exact H.
  - cbv zeta in H. rewrite fetched_app, in_app_iff in H. destruct H as [H|H].
    + unfold sendEvent_effects in H.
      destruct (activeonly opts); [|simpl in H; contradiction].
      split; [reflexivity|]. exists r. split; [left; reflexivity|].
      destruct (stop_requested rt (S n)); [simpl in H; contradiction|].
      cbn [fetched] in H. destruct H as [H|H]; [symmetry; exact H|].
      destruct (fetchUrl sf _); simpl in H; contradiction.
    + apply IH in H. destruct H as [Ha (r' & Hr & Hu)].
      split; [exact Ha|]. exists r'. split; [right; exact Hr | exact Hu].
Qed.

End Announce.

(** ** What a run records, sends, resolves and fetches *)

Section Accounting.

Variable sf : SpiderFoot.
Variable rt : Runtime.
Variable opts : Opts.

Lemma reported_snoc (target : string) (bs : list (list string)) (b : list string) :
  reported rt target (bs ++ [b])
  = reported rt target bs
    ++ filter (differs target) (hits rt (completionOrder rt b)).
Proof. unfold reported. rewrite flat_map_app. simpl. rewrite app_nil_r. reflexivity. Qed.

Lemma accounted_emit (target : string) (e : Effect) (tl : list string)
    (st : Plugin) :
  batches [e] = [] -> accounted rt target tl st -> accounted rt target tl (emit e st).
Proof.
  intros He [Hb Hr]. split; [exact Hb|].
  unfold emit. cbn [results trace]. rewrite batches_app, He, app_nil_r. exact Hr.
Qed.

Lemma accounted_flush (target : string) (tl : list string) (st : Plugin) :
  accounted rt target tl st ->
  accounted rt target [] (tryTldWrapper sf rt opts tl st).
Proof.
  intros [Hb Hr]. split.
  - rewrite tryTldWrapper_eq. exact Hb.
  - rewrite batches_tryTldWrapper, reported_snoc, <- Hr, <- Hb.
    rewrite tryTldWrapper_eq. reflexivity.
Qed.

Lemma accounted_scan (target keyword : string) (lines : list string) (st : Plugin) :
  accounted rt target [] st ->
  accounted rt target [] (scan sf rt opts keyword lines st).
Proof.
  apply (scan_rule sf rt opts keyword lines
           (accounted rt target) (accounted rt target)
           (accounted rt target [])).
  - intros zone tl st0. apply accounted_emit. reflexivity.
  - intros zone tl st0. apply accounted_emit. reflexivity.
  - intros tl st0 H.
    destruct (stop_requested rt (length (trace st0))).
    + apply (accounted_emit target (CheckForStop true) tl st0 eq_refl H).
    + apply accounted_emit; auto.
  - auto.
  - intros c tl st0 _ _ H. exact H.
  - intros tl st0 _. apply accounted_flush.
  - intros tl st0 H. unfold leftover.
    destruct (0 <? length tl)%nat; [apply accounted_flush|]; exact H.
Qed.

Lemma accounted_start (target : string) :
  accounted rt target [] (start sf rt opts (setup target)).
Proof.
  rewrite start_scan. cbv zeta.
  assert (H0 : accounted rt target [] (setup target)) by (split; reflexivity).
  destruct (fetchUrl sf (tldlist opts)).
  - apply accounted_scan. repeat apply accounted_emit; auto.
  - repeat apply accounted_emit; auto.
Qed.

(** After a run, [results] holds, batch after batch, the resolving candidates
    of the dispatched batches other than the target.  When every started
    worker finishes, a name is in [results] exactly when it is in a
    dispatched batch, its lookup succeeded and it is not the target. *)
Theorem results_are_resolving_dispatched (target : string) :
  let st := start sf rt opts (setup target) in
  results st = reported rt target (batches (trace st))
  /\ ((forall l, Permutation (completionOrder rt l) l) ->
      forall r,
        In r (results st)
        <-> exists batch,
              In batch (batches (trace st)) /\ In r batch
              /\ resolves rt r = true /\ r <> target).
Proof.
  cbv zeta. destruct (accounted_start target) as [_ Hr].
  split; [exact Hr|].
  intros Hperm r. rewrite Hr. unfold reported. rewrite in_flat_map.
  split.
  - intros (b & Hb & Hin). exists b. split; [exact Hb|].
    apply filter_In in Hin. destruct Hin as [Hin Hd].
    unfold hits in Hin. apply filter_In in Hin. destruct Hin as [Hin Hres].
    apply (proj1 (In_uniq _ _)) in Hin.
    split; [eapply Permutation_in; [apply Hperm | exact Hin]|].
    split; [exact Hres|].
    unfold differs in Hd. intros ->. rewrite String.eqb_refl in Hd. discriminate.
  - intros (b & Hb & Hin & Hres & Hne). exists b. split; [exact Hb|].
    apply filter_In. split.
    + unfold hits. apply filter_In. split; [|exact Hres].
      apply In_uniq. eapply Permutation_in; [apply Permutation_sym, Hperm | exact Hin].
    + unfold differs. apply String.eqb_neq in Hne. rewrite Hne. reflexivity.
Qed.

Lemma resolved_emit (e : Effect) (tl : list string) (st : Plugin) :
  batches [e] = [] -> lookups [e] = [] ->
  resolved_in_batches rt tl st -> resolved_in_batches rt tl (emit e st).
Proof.
  intros Hb Hl H. unfold resolved_in_batches, emit in *. cbn [trace].
  rewrite batches_app, lookups_app, Hb, Hl, !app_nil_r. exact H.
Qed.

Lemma resolved_flush (tl tl' : list string) (st : Plugin) :
  resolved_in_batches rt tl st ->
  resolved_in_batches rt tl' (tryTldWrapper sf rt opts tl st).
Proof.
  unfold resolved_in_batches. intros H.
  rewrite batches_tryTldWrapper, concat_app, <- H.
  rewrite tryTldWrapper_eq. cbv zeta. cbn [trace].
  rewrite lookups_app. cbn [lookups concat].
  rewrite lookups_app, lookups_map_lookup, lookups_announce_effects, !app_nil_r.
  reflexivity.
Qed.

Lemma grouped_by_batch (bs : list (list string)) :
  Forall2 (@Permutation string) bs bs.
Proof. induction bs; constructor; auto. Qed.

Lemma resolved_start (target : string) :
  resolved_in_batches rt [] (start sf rt opts (setup target)).
Proof.
  rewrite start_scan. cbv zeta.
  destruct (fetchUrl sf (tldlist opts)); [|reflexivity].
  apply (scan_rule sf rt opts _ _
           (resolved_in_batches rt) (resolved_in_batches rt)
           (resolved_in_batches rt [])).
  - intros zone tl st0. apply resolved_emit; reflexivity.
  - intros zone tl st0. apply resolved_emit; reflexivity.
  - intros tl st0 H.
    destruct (stop_requested rt (length (trace st0)));
      apply resolved_emit; auto.
  - auto.
  - auto.
  - intros tl st0 _. apply resolved_flush.
  - intros tl st0 H. unfold leftover.
    destruct (0 <? length tl)%nat; [apply (resolved_flush tl [])|]; exact H.
  - reflexivity.
Qed.

(** A lookup is made for the candidates of the dispatched batches and for
    nothing else.  The names handed to [gethostbyname_ex] over a run fall
    into one group per dispatched batch, in the order of the batches, and the
    group of a batch holds the candidates of the batch, each as often as it
    occurs there; nothing is said of the order of the calls within a batch.
    So each dispatched candidate is looked up as often as it was
    dispatched. *)
Theorem lookups_are_the_dispatched (target : string) :
  let st := start sf rt opts (setup target) in
  (exists groups,
     lookups (trace st) = concat groups
     /\ Forall2 (@Permutation string) groups (batches (trace st)))
  /\ Permutation (lookups (trace st)) (concat (batches (trace st))).
Proof.
  cbv zeta. pose proof (resolved_start target) as H.
  unfold resolved_in_batches in H. split.
  - exists (batches (trace (start sf rt opts (setup target)))).
    split; [exact H | apply grouped_by_batch].
  - rewrite H. apply Permutation_refl.
Qed.

Lemma events_recorded_emit (e : Effect) (tl : list string) (st : Plugin) :
  notified [e] = [] -> events_recorded tl st -> events_recorded tl (emit e st).
Proof.
  intros He H. unfold events_recorded, emit in *. cbn [trace results].
  rewrite notified_app, He, app_nil_r. exact H.
Qed.

Lemma events_recorded_flush (tl tl' : list string) (st : Plugin) :
  events_recorded tl st -> events_recorded tl' (tryTldWrapper sf rt opts tl st).
Proof.
  unfold events_recorded. intros H c Hc.
  rewrite tryTldWrapper_eq in *. cbv zeta in *. cbn [trace results] in *.
  rewrite notified_app in Hc. cbn [notified] in Hc.
  rewrite notified_app, notified_map_lookup in Hc. cbn [app] in Hc.
  apply in_app_iff in Hc. apply in_app_iff. destruct Hc as [Hc|Hc].
  - left. apply H, Hc.
  - right. eapply In_notified_announce, Hc.
Qed.

Lemma events_are_results_emit (e : Effect) (tl : list string) (st : Plugin) :
  notified [e] = [] -> events_are_results tl st -> events_are_results tl (emit e st).
Proof.
  intros He H. unfold events_are_results, emit in *. cbn [trace results].
  rewrite notified_app, He, app_nil_r. exact H.
Qed.

Lemma events_are_results_flush (tl tl' : list string) (st : Plugin) :
  activeonly opts = false ->
  events_are_results tl st ->
  events_are_results tl' (tryTldWrapper sf rt opts tl st).
Proof.
  unfold events_are_results. intros Hact H.
  rewrite tryTldWrapper_eq. cbv zeta. cbn [trace results].
  rewrite notified_app. cbn [notified].
  rewrite notified_app, notified_map_lookup, notified_announce_passive, H; auto.
Qed.

(** An event is only ever sent for a name that has been appended to
    [results]; without [activeonly] the events sent over a run are the
    entries of [results], in the same order. *)
Theorem events_are_recorded_results (target : string) :
  let st := start sf rt opts (setup target) in
  incl (notified (trace st)) (results st)
  /\ (activeonly opts = false -> notified (trace st) = results st).
Proof.
  cbv zeta. split.
  - change (events_recorded [] (start sf rt opts (setup target))).
    rewrite start_scan. cbv zeta.
    assert (H0 : events_recorded [] (setup target)) by (intros c Hc; exact Hc).
    destruct (fetchUrl sf (tldlist opts)).
    + apply (scan_rule sf rt opts _ _ events_recorded events_recorded
               (events_recorded [])).
      * intros zone tl st0. apply events_recorded_emit. reflexivity.
      * intros zone tl st0. apply events_recorded_emit. reflexivity.
      * intros tl st0 H.
        destruct (stop_requested rt (length (trace st0)));
          apply events_recorded_emit; auto.
      * auto.
      * auto.
      * intros tl st0 _. apply events_recorded_flush.
      * intros tl st0 H. unfold leftover.
        destruct (0 <? length tl)%nat; [apply (events_recorded_flush tl [])|];
          exact H.
      * repeat apply events_recorded_emit; auto.
    + repeat apply events_recorded_emit; auto.
  - intros Hact.
    change (events_are_results [] (start sf rt opts (setup target))).
    rewrite start_scan. cbv zeta.
    assert (H0 : events_are_results [] (setup target)) by reflexivity.
    destruct (fetchUrl sf (tldlist opts)).
    + apply (scan_rule sf rt opts _ _ events_are_results events_are_results
               (events_are_results [])).
      * intros zone tl st0. apply events_are_results_emit. reflexivity.
      * intros zone tl st0. apply events_are_results_emit. reflexivity.
      * intros tl st0 H.
        destruct (stop_requested rt (length (trace st0)));
          apply events_are_results_emit; auto.
      * auto.
      * auto.
      * intros tl st0 _. apply events_are_results_flush, Hact.
      * intros tl st0 H. unfold leftover.
        destruct (0 <? length tl)%nat;
          [apply (events_are_results_flush tl []); [exact Hact|]|]; exact H.
      * repeat apply events_are_results_emit; auto.
    + repeat apply events_are_results_emit; auto.
Qed.

End Accounting.

Section Fetches.

Variable sf : SpiderFoot.
Variable rt : Runtime.
Variable opts : Opts.

Lemma fetch_allowed_more (rs rs' : list string) (u : string) :
  fetch_allowed opts rs u -> fetch_allowed opts (rs ++ rs') u.
Proof.
  intros [H|(Ha & r & Hr & Hu)]; [left; exact H|].
  right. split; [exact Ha|]. exists r. split; [apply in_app_iff; left; exact Hr | exact Hu].
Qed.

Lemma fetches_allowed_emit (target : string) (e : Effect) (tl : list string)
    (st : Plugin) :
  fetched [e] = [] ->
  fetches_allowed opts target tl st -> fetches_allowed opts target tl (emit e st).
Proof.
  intros He [Hb H]. split; [exact Hb|].
  unfold emit. cbn [trace results]. rewrite fetched_app, He, app_nil_r. exact H.
Qed.

Lemma fetches_allowed_flush (target : string) (tl tl' : list string) (st : Plugin) :
  fetches_allowed opts target tl st ->
  fetches_allowed opts target tl' (tryTldWrapper sf rt opts tl st).
Proof.
  intros [Hb H]. rewrite tryTldWrapper_eq. cbv zeta.
  split; [exact Hb|]. cbn [trace results]. intros u Hu.
  rewrite fetched_app in Hu. cbn [fetched] in Hu.
  rewrite fetched_app, fetched_map_lookup in Hu. cbn [app] in Hu.
  apply in_app_iff in Hu. destruct Hu as [Hu|Hu].
  - apply fetch_allowed_more, H, Hu.
  - apply In_fetched_announce in Hu. destruct Hu as [Ha (r & Hr & Hu)].
    right. split; [exact Ha|]. exists r.
    split; [apply in_app_iff; right; exact Hr | exact Hu].
Qed.

(** The only addresses a run fetches are the TLD list and, with
    [activeonly], [http://r] for names [r] that it has appended to
    [results]; without [activeonly] no page of a candidate is fetched. *)
Theorem only_list_and_result_pages_fetched (target : string) :
  let st := start sf rt opts (setup target) in
  Forall (fetch_allowed opts (results st)) (fetched (trace st)).
Proof.
  cbv zeta. apply Forall_forall.
  assert (H : fetches_allowed opts target [] (start sf rt opts (setup target))).
  { rewrite start_scan. cbv zeta.
    assert (H1 : fetches_allowed opts target []
                   (emit (FetchUrl (tldlist opts))
                      (emit (SfDebug ("Keyword extracted from " ++ target ++ ": "
                               ++ domainKeyword sf target)%string) (setup target)))).
    { split; [reflexivity|]. intros u Hu. simpl in Hu.
      destruct Hu as [Hu|[]]. left. symmetry. exact Hu. }
    destruct (fetchUrl sf (tldlist opts)).
    - apply (scan_rule sf rt opts _ _
               (fetches_allowed opts target) (fetches_allowed opts target)
               (fetches_allowed opts target [])).
      + intros zone tl st0. apply fetches_allowed_emit. reflexivity.
      + intros zone tl st0. apply fetches_allowed_emit. reflexivity.
      + intros tl st0 H.
        destruct (stop_requested rt (length (trace st0))).
        * apply (fetches_allowed_emit target (CheckForStop true) tl st0 eq_refl H).
        * apply fetches_allowed_emit; auto.
      + auto.
      + intros c tl st0 _ _ H. exact H.
      + intros tl st0 _. apply fetches_allowed_flush.
      + intros tl st0 H. unfold leftover.
        destruct (0 <? length tl)%nat; [apply (fetches_allowed_flush target tl [])|];
          exact H.
      + exact H1.
    - apply fetches_allowed_emit; [reflexivity | exact H1]. }
  exact (proj2 H).
Qed.

(** When the TLD list cannot be fetched the run ends after logging the
    error: nothing is probed, dispatched, resolved or recorded. *)
Theorem no_list_no_search (st : Plugin) :
  fetchUrl sf (tldlist opts) = None ->
  results (start sf rt opts st) = results st
  /\ trace (start sf rt opts st)
     = trace st
       ++ [SfDebug ("Keyword extracted from " ++ baseDomain st ++ ": "
                    ++ domainKeyword sf (baseDomain st))%string;
           FetchUrl (tldlist opts);
           SfError ("Unable to obtain TLD list from " ++ tldlist opts)%string].
Proof.
  intros H. rewrite start_scan. cbv zeta. rewrite H.
  unfold emit. cbn [results trace]. rewrite <- !app_assoc. split; reflexivity.
Qed.

End Fetches.

Lemma no_list_no_search_witness :
  fetchUrl (sf_sample None any_page no_wildcards) (tldlist opts_active) = None
  /\ results (start (sf_sample None any_page no_wildcards) rt_all_up opts_active
                (setup "acme.org")) = results (setup "acme.org").
Proof.
  split; [reflexivity|].
  apply (no_list_no_search (sf_sample None any_page no_wildcards) rt_all_up
           opts_active (setup "acme.org")).
  reflexivity.
Defined.

(** ** The shape of the batches *)

Section Shape.

Variable sf : SpiderFoot.
Variable rt : Runtime.
Variable opts : Opts.

Lemma filling_emit (n : Z) (e : Effect) (tl : list string) (st : Plugin) :
  batches [e] = [] -> filling n tl st -> filling n tl (emit e st).
Proof.
  intros He [Htl Hb]. split; [exact Htl|].
  unfold emit. cbn [trace]. rewrite batches_app, He, app_nil_r. exact Hb.
Qed.

(** With [maxthreads >= 0], every batch handed to [tryTldWrapper] except
    possibly the last one holds exactly [maxthreads + 1] candidates, and no
    batch is empty. *)
Theorem batches_are_full_but_the_last (target : string) :
  (0 <= maxthreads opts)%Z ->
  full_but_last (maxthreads opts)
    (batches (trace (start sf rt opts (setup target)))).
Proof.
  intros Hmax. rewrite start_scan. cbv zeta.
  destruct (fetchUrl sf (tldlist opts)) as [content|].
  - apply (scan_rule sf rt opts _ _
             (filling (maxthreads opts)) (filling (maxthreads opts))
             (fun st' => full_but_last (maxthreads opts) (batches (trace st')))).
    + intros zone tl st0. apply filling_emit. reflexivity.
    + intros zone tl st0. apply filling_emit. reflexivity.
    + intros tl st0 H.
      destruct (stop_requested rt (length (trace st0))).
      * destruct (filling_emit _ (CheckForStop true) tl st0 eq_refl H) as [_ Hb].
        exists (batches (trace (emit (CheckForStop true) st0))), [].
        rewrite app_nil_r. repeat split; auto; try (simpl; lia).
      * apply filling_emit; auto.
    + auto.
    + intros c tl st0 _ Hle [Htl Hb]. split; [|exact Hb].
      rewrite length_app. simpl. lia.
    + intros tl st0 Hgt [Htl Hb]. split; [simpl; lia|].
      rewrite batches_tryTldWrapper. apply Forall_app. split; [exact Hb|].
      constructor; [lia | constructor].
    + intros tl st0 [Htl Hb]. unfold leftover.
      destruct (0 <? length tl)%nat eqn:E.
      * apply Nat.ltb_lt in E.
        exists (batches (trace st0)), [tl].
        split; [apply batches_tryTldWrapper|]. split; [exact Hb|].
        split; [simpl; lia|]. constructor; [lia | constructor].
      * exists (batches (trace st0)), []. rewrite app_nil_r.
        repeat split; auto; try (simpl; lia).
    + split; [simpl; lia | constructor].
  - exists [], []. repeat split; auto; constructor.
Qed.

Lemma starved_emit (e : Effect) (tl : list string) (st : Plugin) :
  batches [e] = [] -> starved tl st -> starved tl (emit e st).
Proof.
  intros He [Htl Hb]. split; [exact Htl|].
  unfold emit. cbn [trace]. rewrite batches_app, He, app_nil_r. exact Hb.
Qed.

(** With a negative [maxthreads] no candidate is ever kept: every batch
    handed to [tryTldWrapper] is empty, so nothing is looked up and [results]
    stays empty. *)
Theorem negative_maxthreads_resolves_nothing (target : string) :
  (maxthreads opts < 0)%Z ->
  completionOrder rt [] = [] ->
  let st := start sf rt opts (setup target) in
  Forall (fun b => b = []) (batches (trace st))
  /\ lookups (trace st) = []
  /\ results st = [].
Proof.
  intros Hmax Hnil. cbv zeta.
  assert (H : Forall (fun b => b = []) (batches (trace (start sf rt opts (setup target))))).
  { rewrite start_scan. cbv zeta.
    destruct (fetchUrl sf (tldlist opts)) as [content|]; [|constructor].
    apply (scan_rule sf rt opts _ _ starved starved
             (fun st' => Forall (fun b => b = []) (batches (trace st')))).
    - intros zone tl st0. apply starved_emit. reflexivity.
    - intros zone tl st0. apply starved_emit. reflexivity.
    - intros tl st0 H.
      destruct (stop_requested rt (length (trace st0))).
      + apply (starved_emit (CheckForStop true) tl st0 eq_refl H).
      + apply starved_emit; auto.
    - auto.
    - intros c tl st0 _ Hle _. exfalso. lia.
    - intros tl st0 _ [Htl Hb]. split; [reflexivity|].
      rewrite batches_tryTldWrapper. apply Forall_app. split; [exact Hb|].
      constructor; [exact Htl | constructor].
    - intros tl st0 [Htl Hb]. subst tl. exact Hb.
    - split; [reflexivity | constructor]. }
  split; [exact H|].
  assert (Hflat : forall (f : list string -> list string) bs,
            f [] = [] -> Forall (fun b : list string => b = []) bs ->
            flat_map f bs = []).
  { intros f bs Hf. induction 1 as [|b bs Hb _ IH]; simpl; [reflexivity|].
    subst b. rewrite Hf, IH. reflexivity. }
  split.
  - rewrite (resolved_start sf rt opts target).
    clear - H. induction H as [|b bs Hb _ IH]; simpl; [reflexivity|].
    subst b. exact IH.
  - destruct (accounted_start sf rt opts target) as [_ Hr]. rewrite Hr.
    unfold reported. apply Hflat; [|exact H]. rewrite Hnil. reflexivity.
Qed.

Lemma halted_emit (st0 : Plugin) (e : Effect) (tl : list string) (st : Plugin) :
  batches [e] = [] -> lookups [e] = [] -> notified [e] = [] ->
  halted rt st0 tl st -> halted rt st0 tl (emit e st).
Proof.
  intros Hb Hl Hn (Htl & (Hr & Hbs & Hls & Hns) & Hs).
  split; [exact Htl|]. unfold idle, emit. cbn [results trace].
  rewrite batches_app, lookups_app, notified_app, Hb, Hl, Hn, !app_nil_r.
  split; [repeat split; assumption|].
  rewrite length_app. apply (stop_requested_mono rt (length (trace st))); [lia | exact Hs].
Qed.

(** When the stop flag is already up as [start] is called, the run records,
    dispatches, resolves and sends nothing. *)
Theorem stopped_run_does_nothing (st : Plugin) :
  stop_requested rt (length (trace st)) = true ->
  idle st (start sf rt opts st).
Proof.
  intros Hs. rewrite start_scan. cbv zeta.
  assert (H0 : halted rt st [] st).
  { split; [reflexivity|]. split; [repeat split | exact Hs]. }
  assert (H1 : halted rt st []
                 (emit (FetchUrl (tldlist opts))
                    (emit (SfDebug ("Keyword extracted from " ++ baseDomain st ++ ": "
                             ++ domainKeyword sf (baseDomain st))%string) st))).
  { repeat apply halted_emit; auto. }
  destruct (fetchUrl sf (tldlist opts)) as [content|].
  - apply (scan_rule sf rt opts _ _ (halted rt st) unreachable (idle st)).
    + intros zone tl st0. apply halted_emit; reflexivity.
    + intros zone tl st0 [].
    + intros tl st0 H. pose proof H as (_ & _ & Hs0). rewrite Hs0.
      apply (halted_emit st (CheckForStop true) tl st0 eq_refl eq_refl eq_refl H).
    + intros tl st0 [].
    + intros c tl st0 _ _ [].
    + intros tl st0 _ [].
    + intros tl st0 (Htl & Hi & _). subst tl. exact Hi.
    + exact H1.
  - apply (halted_emit st (SfError _) [] _ eq_refl eq_refl eq_refl H1).
Qed.

End Shape.

Lemma batches_are_full_but_the_last_witness :
  (0 <= maxthreads (opts_passive 2))%Z
  /\ full_but_last (maxthreads (opts_passive 2))
       (batches (trace (start sf_five rt_all_up (opts_passive 2) (setup "acme.org")))).
Proof.
  split; [vm_compute; discriminate|].
  apply (batches_are_full_but_the_last sf_five rt_all_up (opts_passive 2)).
  vm_compute. discriminate.
Defined.

Lemma negative_maxthreads_resolves_nothing_witness :
  ((maxthreads (opts_passive (-1)) < 0)%Z /\ completionOrder rt_all_up [] = [])
  /\ Forall (fun b : list string => b = [])
       (batches (trace (start sf_five rt_all_up (opts_passive (-1)) (setup "acme.org"))))
  /\ lookups (trace (start sf_five rt_all_up (opts_passive (-1)) (setup "acme.org"))) = []
  /\ results (start sf_five rt_all_up (opts_passive (-1)) (setup "acme.org")) = [].
Proof.
  split; [split; reflexivity|].
  apply (negative_maxthreads_resolves_nothing sf_five rt_all_up (opts_passive (-1))
           "acme.org"%string); reflexivity.
Defined.

(** With [maxthreads = -1] each of the five candidates flushes an empty
    batch. *)
Example negative_maxthreads_sample :
  batches (trace (start sf_five rt_all_up (opts_passive (-1)) (setup "acme.org")))
  = [[]; []; []; []; []].
Proof. vm_compute. reflexivity. Qed.

Lemma stopped_run_does_nothing_witness :
  stop_requested rt_stopped (length (trace (setup "acme.org"))) = true
  /\ idle (setup "acme.org")
       (start sf_five rt_stopped (opts_passive 2) (setup "acme.org")).
Proof.
  split; [reflexivity|].
  apply (stopped_run_does_nothing sf_five rt_stopped (opts_passive 2)
           (setup "acme.org")).
  reflexivity.
Defined.

(** ** Wildcard probes *)

Section Probes.

Variable sf : SpiderFoot.
Variable rt : Runtime.
Variable opts : Opts.
Variable keyword : string.
Variable lines : list string.

Lemma probes_tryTldWrapper (tl : list string) (st : Plugin) :
  probes (trace (tryTldWrapper sf rt opts tl st)) = probes (trace st).
Proof.
  rewrite tryTldWrapper_eq. cbv zeta. cbn [trace].
  rewrite probes_app. cbn [probes].
  rewrite probes_app, probes_map_lookup, probes_announce_effects, !app_nil_r.
  reflexivity.
Qed.

Lemma probes_enqueue (c : string) (tl : list string) (st : Plugin) :
  probes (trace (snd (enqueue sf rt opts c tl st))) = probes (trace st).
Proof.
  unfold enqueue. destruct (Z.of_nat (length tl) <=? maxthreads opts)%Z; simpl;
    [reflexivity | apply probes_tryTldWrapper].
Qed.

Lemma probes_emit (e : Effect) (st : Plugin) :
  probes (trace (emit e st)) = probes (trace st) ++ probes [e].
Proof. unfold emit. cbn [trace]. apply probes_app. Qed.

Lemma sub_loop_probes (tld : string) (subs : list string) :
  In tld lines ->
  startswith "#" tld = false ->
  checkcommon opts = true ->
  (skipwildcards opts = true -> checkDnsWildcard sf tld = false) ->
  incl subs (commontlds opts) ->
  forall tl st,
    Forall (probe_allowed sf opts lines) (probes (trace st)) ->
    Forall (probe_allowed sf opts lines)
      (probes (trace (snd (sub_loop sf rt opts keyword tld subs tl st)))).
Proof.
  intros Hin Hc Hcommon Hw.
  induction subs as [|s subs IH]; intros Hincl tl st H; [exact H|].
  assert (Hs : In s (commontlds opts)) by (apply Hincl; left; reflexivity).
  assert (Hrest : incl subs (commontlds opts)).
  { intros x Hx. apply Hincl. right. exact Hx. }
  cbn [sub_loop]. unfold checkForStop.
  assert (H1 : Forall (probe_allowed sf opts lines)
                 (probes (trace (emit (CheckForStop
                    (stop_requested rt (length (trace st)))) st)))).
  { rewrite probes_emit. simpl. rewrite app_nil_r. exact H. }
  destruct (stop_requested rt (length (trace st))); [exact H1|].
  unfold wildcard_skipped. destruct (skipwildcards opts) eqn:Hskip.
  - assert (H2 : Forall (probe_allowed sf opts lines)
                   (probes (trace (emit (CheckDnsWildcard (s ++ "." ++ tld)%string)
                      (emit (CheckForStop false) st))))).
    { rewrite probes_emit. apply Forall_app. split; [exact H1|].
      constructor; [|constructor].
      split; [exact Hskip|]. exists tld. split; [exact Hin|]. split; [exact Hc|].
      right. split; [exact Hcommon|]. split; [apply Hw; reflexivity|].
      exists s. split; [exact Hs | reflexivity]. }
    destruct (checkDnsWildcard sf (s ++ "." ++ tld)); [apply IH; auto|].
    pose proof (probes_enqueue (keyword ++ "." ++ s ++ "." ++ tld)%string tl
                  (emit (CheckDnsWildcard (s ++ "." ++ tld)%string)
                     (emit (CheckForStop false) st))) as He.
    destruct (enqueue sf rt opts _ tl _) as [tl' st']. cbn [snd] in He.
    apply IH; auto. rewrite He. exact H2.
  - pose proof (probes_enqueue (keyword ++ "." ++ s ++ "." ++ tld)%string tl
                  (emit (CheckForStop false) st)) as He.
    destruct (enqueue sf rt opts _ tl _) as [tl' st']. cbn [snd] in He.
    apply IH; auto. rewrite He. exact H1.
Qed.

Lemma tld_loop_probes (ls : list string) :
  incl ls lines ->
  forall tl st,
    Forall (probe_allowed sf opts lines) (probes (trace st)) ->
    Forall (probe_allowed sf opts lines)
      (probes (trace (snd (tld_loop sf rt opts keyword ls tl st)))).
Proof.
  induction ls as [|tld ls IH]; intros Hincl tl st H; [exact H|].
  assert (Hin : In tld lines) by (apply Hincl; left; reflexivity).
  assert (Hrest : incl ls lines).
  { intros x Hx. apply Hincl. right. exact Hx. }
  cbn [tld_loop].
  destruct (startswith "#" tld) eqn:Hc; [apply IH; auto|].
  assert (Hgo : forall st0,
    (skipwildcards opts = true -> checkDnsWildcard sf tld = false) ->
    Forall (probe_allowed sf opts lines) (probes (trace st0)) ->
    Forall (probe_allowed sf opts lines)
      (probes (trace (snd
        (let (stop, st1) := checkForStop rt st0 in
         if stop then (None, st1)
         else
           let (targetList, st2) :=
             enqueue sf rt opts (keyword ++ "." ++ tld) tl st1 in
           if checkcommon opts then
             match sub_loop sf rt opts keyword tld (commontlds opts) targetList st2 with
             | (None, st3) => (None, st3)
             | (Some targetList0, st3) =>
                 tld_loop sf rt opts keyword ls targetList0 st3
             end
           else tld_loop sf rt opts keyword ls targetList st2))))).
  { intros st0 Hw H0. unfold checkForStop.
    assert (H1 : Forall (probe_allowed sf opts lines)
                   (probes (trace (emit (CheckForStop
                      (stop_requested rt (length (trace st0)))) st0)))).
    { rewrite probes_emit. simpl. rewrite app_nil_r. exact H0. }
    destruct (stop_requested rt (length (trace st0))); [exact H1|].
    pose proof (probes_enqueue (keyword ++ "." ++ tld)%string tl
                  (emit (CheckForStop false) st0)) as He.
    destruct (enqueue sf rt opts _ tl _) as [tl' st']. cbn [snd] in He.
    rewrite <- He in H1.
    destruct (checkcommon opts) eqn:Hcommon; [|apply IH; auto].
    pose proof (sub_loop_probes tld (commontlds opts) Hin Hc Hcommon Hw
                  (incl_refl _) tl' st' H1) as Hsub.
    destruct (sub_loop sf rt opts keyword tld (commontlds opts) tl' st')
      as [[tl''|] st'']; cbn [snd] in Hsub; [apply IH; auto | exact Hsub]. }
  unfold wildcard_skipped. destruct (skipwildcards opts) eqn:Hskip.
  - assert (H2 : Forall (probe_allowed sf opts lines)
                   (probes (trace (emit (CheckDnsWildcard tld) st)))).
    { rewrite probes_emit. apply Forall_app. split; [exact H|].
      constructor; [|constructor].
      split; [exact Hskip|]. exists tld. split; [exact Hin|]. split; [exact Hc|].
      left. reflexivity. }
    destruct (checkDnsWildcard sf tld) eqn:Hw; [apply IH; auto|].
    apply Hgo; auto.
  - apply Hgo; auto. intros; congruence.
Qed.

End Probes.

Section ProbesOfARun.

Variable sf : SpiderFoot.
Variable rt : Runtime.
Variable opts : Opts.

(** A wildcard probe is made only with [skipwildcards] set, and only for a
    line of the TLD list that is not a comment or for a zone [s.tld] with [s]
    a common sub-TLD and [tld] such a line that was found to be no wildcard
    zone; without [skipwildcards] a run probes nothing. *)
Theorem probes_only_when_skipping_wildcards (target : string) :
  let st := start sf rt opts (setup target) in
  Forall (fun z => exists content,
            fetchUrl sf (tldlist opts) = Some content
            /\ probe_allowed sf opts (splitlines (lower content)) z)
    (probes (trace st))
  /\ (skipwildcards opts = false -> probes (trace st) = []).
Proof.
  cbv zeta.
  assert (H : Forall (fun z => exists content,
            fetchUrl sf (tldlist opts) = Some content
            /\ probe_allowed sf opts (splitlines (lower content)) z)
            (probes (trace (start sf rt opts (setup target))))).
  { rewrite start_scan. cbv zeta.
    destruct (fetchUrl sf (tldlist opts)) as [content|]; [|constructor].
    unfold scan.
    match goal with
    | |- context [tld_loop sf rt opts ?kw ?ls [] ?s] =>
        pose proof (tld_loop_probes sf rt opts kw ls ls (incl_refl _) [] s
                      (Forall_nil _)) as Hp;
        destruct (tld_loop sf rt opts kw ls [] s) as [[tl|] st']
    end; cbn [snd] in Hp.
    - unfold leftover. destruct (0 <? length tl)%nat.
      + rewrite probes_tryTldWrapper.
        eapply Forall_impl; [|exact Hp]. intros z Hz. exists content. auto.
      + eapply Forall_impl; [|exact Hp]. intros z Hz. exists content. auto.
    - eapply Forall_impl; [|exact Hp]. intros z Hz. exists content. auto. }
  split; [exact H|].
  intros Hskip. destruct (probes (trace (start sf rt opts (setup target)))) as [|z l];
    [reflexivity|].
  apply Forall_inv in H. destruct H as (content & _ & Hs & _). congruence.
Qed.

End ProbesOfARun.

(** ** The lines of the TLD list *)

Lemma lower_ascii_idem (c : ascii) : lower_ascii (lower_ascii c) = lower_ascii c.
Proof. destruct c as [[] [] [] [] [] [] [] []]; reflexivity. Qed.

Lemma lowered_lower (s : string) : lowered (lower s).
Proof.
  unfold lowered. induction s as [|c s IH]; simpl; [reflexivity|].
  rewrite lower_ascii_idem, IH. reflexivity.
Qed.

Lemma lower_append (s t : string) : lower (s ++ t) = (lower s ++ lower t)%string.
Proof. induction s as [|c s IH]; simpl; [|rewrite IH]; reflexivity. Qed.

Lemma lowered_String (c : ascii) (s : string) :
  lowered (String c s) -> lower_ascii c = c /\ lowered s.
Proof. unfold lowered. simpl. intros H. injection H as Hc Hs. split; assumption. Qed.

Lemma splitlines_from_lowered (n : nat) :
  forall s cur,
    String.length s <= n -> lowered cur -> lowered s ->
    Forall lowered (splitlines_from cur s).
Proof.
  induction n as [|n IH]; intros s cur Hlen Hcur Hs.
  - destruct s; [|simpl in Hlen; lia]. simpl.
    destruct (String.eqb cur ""); repeat constructor; exact Hcur.
  - destruct s as [|c rest].
    + simpl. destruct (String.eqb cur ""); repeat constructor; exact Hcur.
    + apply lowered_String in Hs. destruct Hs as [Hc Hrest].
      simpl in Hlen. cbn [splitlines_from].
      assert (Hempty : lowered "") by reflexivity.
      destruct (Ascii.eqb c LF).
      { constructor; [exact Hcur|]. apply IH; auto. lia. }
      destruct (Ascii.eqb c CR).
      { destruct rest as [|c' rest'].
        - constructor; [exact Hcur|]. apply IH; auto. lia.
        - destruct (Ascii.eqb c' LF).
          + constructor; [exact Hcur|].
            apply lowered_String in Hrest. destruct Hrest as [_ Hrest'].
            apply IH; auto. simpl in Hlen. lia.
          + constructor; [exact Hcur|]. apply IH; auto. lia. }
      apply IH; [lia | | exact Hrest].
      unfold lowered in *. rewrite lower_append. simpl. rewrite Hcur, Hc. reflexivity.
Qed.

Lemma lines_lowered (content : string) :
  Forall lowered (splitlines (lower content)).
Proof.
  apply (splitlines_from_lowered (String.length (lower content)));
    [lia | reflexivity | apply lowered_lower].
Qed.

Section LowerCase.

Variable sf : SpiderFoot.
Variable rt : Runtime.
Variable opts : Opts.

(** The TLD list is read without regard to case: every line the loop sees
    is in lower case, so every candidate handed to [tryTldWrapper] is
    [keyword.tld] or [keyword.s.tld] where [tld] is a line of the lower-cased
    list that is not a comment and has no upper-case letter, whatever the
    case of the list that was fetched. *)
Theorem candidates_use_lower_case_tlds (target : string) :
  Forall (Forall (fun c =>
            exists content,
              fetchUrl sf (tldlist opts) = Some content
              /\ on_lower_case_tld opts (domainKeyword sf target)
                   (splitlines (lower content)) c))
    (batches (trace (start sf rt opts (setup target)))).
Proof.
  rewrite start_scan. cbv zeta.
  destruct (fetchUrl sf (tldlist opts)) as [content|]; [|constructor].
  cbn [baseDomain setup].
  match goal with
  | |- context [scan _ _ _ ?kw ?ls ?s] =>
      pose proof (sourced_scan sf rt opts kw ls s eq_refl) as H
  end.
  eapply Forall_impl; [|exact H]. intros b Hb.
  eapply Forall_impl; [|exact Hb]. intros c (tld & Hin & Hcomment & _ & Hc).
  exists content. split; [reflexivity|].
  exists tld. split; [exact Hin|]. split; [exact Hcomment|]. split.
  - pose proof (lines_lowered content) as Hl. rewrite Forall_forall in Hl.
    apply Hl, Hin.
  - destruct Hc as [Hc|(_ & s & Hs & _ & Hc)]; [left; exact Hc|].
    right. exists s. split; assumption.
Qed.

End LowerCase.

(** The list as IANA serves it, in upper case and with a comment line. *)
Example upper_case_list :
  batches (trace (start
    (sf_sample (Some ("# Version 1" ++ nl ++ "COM" ++ nl ++ "XN--P1AI")%string)
       any_page no_wildcards)
    rt_all_up (opts_passive 100) (setup "acme.org")))
  = [["acme.com"; "acme.xn--p1ai"]%string].
Proof. vm_compute. reflexivity. Qed.

(** ** The options *)

Lemma opt_get_set_same (k : string) (v : OptValue) (d : optdict) :
  opt_get k (opt_set k v d) = Some v.
Proof.
  induction d as [|[k' v'] d IH]; simpl.
  - rewrite String.eqb_refl. reflexivity.
  - destruct (String.eqb k' k) eqn:E; simpl; rewrite E; auto.
Qed.

Lemma opt_get_set_other (k k0 : string) (v : OptValue) (d : optdict) :
  k0 <> k -> opt_get k0 (opt_set k v d) = opt_get k0 d.
Proof.
  intros Hne. induction d as [|[k' v'] d IH]; simpl.
  - destruct (String.eqb k k0) eqn:E; [|reflexivity].
    apply String.eqb_eq in E. congruence.
  - destruct (String.eqb k' k) eqn:E; simpl.
    + destruct (String.eqb k' k0) eqn:E0; [|reflexivity].
      apply String.eqb_eq in E, E0. congruence.
    + rewrite IH. reflexivity.
Qed.

Lemma opt_get_In (k : string) (d : optdict) :
  In k (map fst d) -> exists v, opt_get k d = Some v.
Proof.
  induction d as [|[k' v'] d IH]; simpl; [tauto|].
  intros [H|H].
  - subst k'. rewrite String.eqb_refl. eauto.
  - destruct (String.eqb k' k); eauto.
Qed.

Lemma opt_get_not_In (k : string) (d : optdict) :
  ~ In k (map fst d) -> opt_get k d = None.
Proof.
  induction d as [|[k' v'] d IH]; simpl; [reflexivity|].
  intros H. destruct (String.eqb k' k) eqn:E.
  - apply String.eqb_eq in E. tauto.
  - apply IH. tauto.
Qed.

Lemma merge_fold (userOpts : optdict) (ks : list string) (shared : optdict)
    (k : string) :
  incl ks (map fst userOpts) ->
  opt_get k
    (fold_left
       (fun d opt => match opt_get opt userOpts with
                     | Some v => opt_set opt v d
                     | None => d
                     end) ks shared)
  = if mem k ks then opt_get k userOpts else opt_get k shared.
Proof.
  revert shared. induction ks as [|a ks IH]; intros shared Hincl; [reflexivity|].
  assert (Ha : In a (map fst userOpts)) by (apply Hincl; left; reflexivity).
  assert (Hrest : incl ks (map fst userOpts)).
  { intros x Hx. apply Hincl. right. exact Hx. }
  destruct (opt_get_In a userOpts Ha) as [v Hv].
  cbn [fold_left]. rewrite Hv, (IH _ Hrest).
  unfold mem. cbn [existsb]. fold (mem k ks).
  destruct (mem k ks); [rewrite orb_true_r; reflexivity|].
  rewrite orb_false_r. destruct (String.eqb k a) eqn:E.
  - apply String.eqb_eq in E. subst a. rewrite opt_get_set_same, Hv. reflexivity.
  - apply opt_get_set_other. apply String.eqb_neq, E.
Qed.

Lemma merge_opts_get (shared userOpts : optdict) (k : string) :
  opt_get k (merge_opts shared userOpts)
  = match opt_get k userOpts with
    | Some v => Some v
    | None => opt_get k shared
    end.
Proof.
  unfold merge_opts. rewrite merge_fold; [|apply incl_refl].
  destruct (mem k (map fst userOpts)) eqn:E.
  - apply mem_In in E. destruct (opt_get_In k userOpts E) as [v Hv].
    rewrite Hv. reflexivity.
  - apply mem_not_In in E. rewrite (opt_get_not_In k userOpts E). reflexivity.
Qed.

(** [setup] overrides exactly the options the user gives and keeps every
    other entry of [opts].  As [opts] belongs to the class, an override
    stays in force for a later [setup] that does not give that option. *)
Theorem setup_overrides_given_options (shared first second : optdict) (k : string) :
  opt_get k (merge_opts shared first)
  = match opt_get k first with
    | Some v => Some v
    | None => opt_get k shared
    end
  /\ opt_get k (merge_opts (merge_opts shared first) second)
     = match opt_get k second with
       | Some v => Some v
       | None =>
           match opt_get k first with
           | Some v => Some v
           | None => opt_get k shared
           end
       end.
Proof.
  split; [apply merge_opts_get|].
  rewrite !merge_opts_get. reflexivity.
Qed.

(** The class options read as the defaults; so do they after a [setup]
    without options. *)
Example class_opts_are_defaults :
  opts_of class_opts = Some default_opts
  /\ opts_of (merge_opts class_opts []) = Some default_opts.
Proof. split; reflexivity. Qed.

(** An override of [maxthreads] outlives the scan it was given for. *)
Example override_persists :
  opt_get "maxthreads"
    (merge_opts (merge_opts class_opts [("maxthreads"%string, VInt 10)])
       [("activeonly"%string, VBool false)])
  = Some (VInt 10).
Proof. reflexivity. Qed.
